(** * DDR ingest pipeline (ddr-cmdln, [DDR/ingest.py])

    A shallow embedding of the add-file pipeline: the audit logger, the
    relocation and rollback functions, the staging verifier and the commit
    gate, together with the properties of the written specification that
    they satisfy or fail to satisfy.

    Python code is embedded in a state-and-exception monad over a [World]
    made of the filesystem, the external store, the in-memory parent
    entity and the trace of every primitive call made so far (newest
    first).  Modules of
    the repository that the pipeline only calls ([config], [dvcs],
    [imaging], [util], [identifier], [changelog], the model classes) enter
    as a record of collaborators, [Collab]. *)

From Stdlib Require Import String Ascii List ZArith Lia Bool.
From stdpp Require Import gmap strings list pretty sorting.

Set Default Proof Using "Type".

(** ** Python values and strings *)

Module Py.

(** The values that flow through object attributes and form data;
    [VObj] stands for a module, class or function object. *)
Inductive val :=
| VNone
| VBool (b : bool)
| VInt (n : Z)
| VStr (s : string)
| VObj (name : string).

Global Instance val_eq_dec : EqDecision val.
Proof. solve_decision. Defined.

(** Truth value of an object, as tested by [if x] and [not x]. *)
Definition truthy (v : val) : bool :=
  match v with
  | VNone => false
  | VBool b => b
  | VInt n => negb (n =? 0)%Z
  | VStr s => negb (String.eqb s "")
  | VObj _ => true
  end.

(** [str(v)], what [%s] and [{}] substitute. *)
Definition str (v : val) : string :=
  match v with
  | VNone => "None"
  | VBool true => "True"
  | VBool false => "False"
  | VInt n => pretty n
  | VStr s => s
  | VObj name => "<" +:+ name +:+ ">"
  end.

Definition of_opt (o : option string) : val :=
  match o with Some s => VStr s | None => VNone end.

(** [repr] of a byte string without quotes or backslashes inside. *)
Definition repr_str (s : string) : string := "'" +:+ s +:+ "'".

Fixpoint join_with (sep : string) (l : list string) : string :=
  match l with
  | [] => ""
  | [x] => x
  | x :: r => x +:+ sep +:+ join_with sep r
  end.

(** [str] of a list of strings: ['a', 'b']. *)
Definition str_list (l : list string) : string :=
  "[" +:+ join_with ", " (map repr_str l) +:+ "]".

Definition str_nat (n : nat) : string := pretty n.

(** [s[:n]] *)
Fixpoint prefix (n : nat) (s : string) : string :=
  match n, s with
  | S k, String c r => String c (prefix k r)
  | _, _ => ""
  end.

(** [s.replace(old, '')] for a non-empty [old]: every occurrence, scanning
    left to right, is dropped.  [fuel] bounds the scan by the length. *)
Fixpoint drop_prefix (p s : string) : option string :=
  match p, s with
  | EmptyString, _ => Some s
  | String a p', String b s' => if Ascii.eqb a b then drop_prefix p' s' else None
  | String _ _, EmptyString => None
  end.

Fixpoint remove_all_fuel (fuel : nat) (old s : string) : string :=
  match fuel with
  | O => s
  | S k =>
      match drop_prefix old s with
      | Some rest => remove_all_fuel k old rest
      | None =>
          match s with
          | EmptyString => ""
          | String c r => String c (remove_all_fuel k old r)
          end
      end
  end.

Definition remove_all (old s : string) : string :=
  match old with
  | EmptyString => s
  | _ => remove_all_fuel (S (String.length s)) old s
  end.

End Py.

(** ** [os.path] on POSIX *)

Module OsPath.

Definition slash : ascii := "/"%char.
Definition dot : ascii := "."%char.

Definition chars := list_ascii_of_string.
Definition text := string_of_list_ascii.

Definition is_slash (c : ascii) : bool := Ascii.eqb c slash.
Definition is_dot (c : ascii) : bool := Ascii.eqb c dot.

Fixpoint take_while (p : ascii -> bool) (l : list ascii) : list ascii :=
  match l with
  | c :: r => if p c then c :: take_while p r else []
  | [] => []
  end.

Fixpoint drop_while (p : ascii -> bool) (l : list ascii) : list ascii :=
  match l with
  | c :: r => if p c then drop_while p r else l
  | [] => []
  end.

Definition starts_with_slash (s : string) : bool :=
  match s with String c _ => is_slash c | EmptyString => false end.

Definition ends_with_slash (s : string) : bool :=
  match rev (chars s) with c :: _ => is_slash c | [] => false end.

(** One step of [posixpath.join]: an absolute component restarts the
    path, otherwise it is appended after exactly one separator. *)
Definition join2 (a b : string) : string :=
  if starts_with_slash b then b
  else if String.eqb a "" || ends_with_slash a then a +:+ b
  else a +:+ "/" +:+ b.

Definition join (a : string) (p : list string) : string := fold_left join2 p a.

(** [basename]: what follows the last separator. *)
Definition basename (p : string) : string :=
  text (rev (take_while (fun c => negb (is_slash c)) (rev (chars p)))).

(** [dirname]: what precedes it, trailing separators stripped unless the
    head is made of separators only. *)
Definition dirname (p : string) : string :=
  let head := rev (drop_while (fun c => negb (is_slash c)) (rev (chars p))) in
  if forallb is_slash head then text head
  else text (rev (drop_while is_slash (rev head))).

(** [splitext(p)[1]]: from the last dot of the basename on, provided a
    character other than a dot comes before it. *)
Definition ext (p : string) : string :=
  let b := drop_while is_dot (chars (basename p)) in
  if existsb is_dot b
  then text (dot :: rev (take_while (fun c => negb (is_dot c)) (rev b)))
  else "".

End OsPath.

(** ** The filesystem

    A flat map from absolute paths to nodes.  Parent directories are not
    tracked: a node can sit at any path.  Symbolic links are followed up to
    the kernel's limit of 40. *)

Inductive node :=
| Dir
| File (content : string)
| Symlink (target : string).

Module Fs.

Fixpoint follow (fuel : nat) (fs : gmap string node) (p : string) : option string :=
  match fs !! p with
  | Some (Symlink t) => match fuel with O => None | S k => follow k fs t end
  | _ => Some p
  end.

(** [os.stat]: the node a path leads to, links followed. *)
Definition stat (fs : gmap string node) (p : string) : option node :=
  match follow 40 fs p with
  | Some q => fs !! q
  | None => None
  end.

(** [os.path.lexists] *)
Definition lexists (fs : gmap string node) (p : string) : bool :=
  match fs !! p with Some _ => true | None => false end.

(** [os.path.exists]: false for a broken link. *)
Definition exists_ (fs : gmap string node) (p : string) : bool :=
  match stat fs p with Some _ => true | None => false end.

(** [os.path.islink] *)
Definition islink (fs : gmap string node) (p : string) : bool :=
  match fs !! p with Some (Symlink _) => true | _ => false end.

(** [os.path.isdir] *)
Definition isdir (fs : gmap string node) (p : string) : bool :=
  match stat fs p with Some Dir => true | _ => false end.

End Fs.

(** ** Exceptions *)

Inductive exn :=
| Exception (msg : string)
| FileExistsException (msg : string)
| FileMissingException (msg : string)
| IOError (path : string)
| OSError (path : string)
| ShutilError (path : string)
| NameError (name : string)
| TypeError (msg : string)
| AttributeError (name : string)
| AssertionError
| Foreign (what : string).

(** [sys.exc_info()[0]] printed: the exception's type. *)
Definition exc_type_repr (e : exn) : string :=
  match e with
  | Exception _ => "<type 'exceptions.Exception'>"
  | FileExistsException _ => "<class 'DDR.ingest.FileExistsException'>"
  | FileMissingException _ => "<class 'DDR.ingest.FileMissingException'>"
  | IOError _ => "<type 'exceptions.IOError'>"
  | OSError _ => "<type 'exceptions.OSError'>"
  | ShutilError _ => "<class 'shutil.Error'>"
  | NameError _ => "<type 'exceptions.NameError'>"
  | TypeError _ => "<type 'exceptions.TypeError'>"
  | AttributeError _ => "<type 'exceptions.AttributeError'>"
  | AssertionError => "<type 'exceptions.AssertionError'>"
  | Foreign what => what
  end.

(** The class named by the optional argument of [AddFileLogger.crash]. *)
Inductive exn_class := ClsException | ClsFileExists | ClsFileMissing.

Definition instantiate (c : exn_class) (msg : string) : exn :=
  match c with
  | ClsException => Exception msg
  | ClsFileExists => FileExistsException msg
  | ClsFileMissing => FileMissingException msg
  end.

(** ** Objects of the repository's model classes *)

(** An [Identifier], as far as the pipeline reads it. *)
Record Identifier := {
  id : string;
  collection_id : string;
  parent_id : string;
  basepath : string }.

(** A [File] object is its attribute dictionary: [setattr] is insertion. *)
Abbreviation FileObj := (gmap string Py.val).

(** The parent entity.  Its list of children, [_file_objects], is mutable
    and shared with the caller: it lives in the [World]. *)
Record Entity := {
  entity_id : string;
  identifier : Identifier;
  path : string;
  collection_path : string;
  files_path : string;
  json_path : string;
  json_path_rel : string;
  changelog_path : string;
  changelog_path_rel : string }.

(** ** The external store (git with git-annex) *)

Record Commit := { hexsha : string; committed : list string }.

Record Store := {
  staged : list string;
  modified : list string;
  history : list Commit }.

(** ** Primitive calls *)

Inductive access_mode := R_OK | W_OK.

Inductive event :=
| EvLog (logpath ts status msg : string)
| EvExists (p : string) (r : bool)
| EvIslink (p : string) (r : bool)
| EvAccess (p : string) (mode : access_mode) (r : bool)
| EvGetsize (p : string)
| EvMakedirs (p : string)
| EvCopy (src dst : string)
| EvChmod (p : string)
| EvMove (src dst : string)
| EvWriteText (p : string)
| EvFileHash (p algo : string)
| EvExtractXmp (p : string)
| EvThumbnail (src dst : string)
| EvIdentifierChild (role sha1 : string)
| EvSetAccess (p : string)
| EvAppendChild (f : FileObj)
| EvEntityWriteJson (p : string)
| EvRepository (p : string)
| EvListStaged (r : list string)
| EvListModified (r : list string)
| EvStage (files : list Py.val)
| EvAnnexStage (files : list Py.val)
| EvWriteChangelog (p : string)
| EvCommit (msg agent : string)
| EvListCommitted (sha : string).

Record World := {
  fs : gmap string node;
  store : Store;
  file_objects : list FileObj;
  trace : list event }.

Definition with_fs (f : gmap string node) (w : World) : World :=
  {| fs := f; store := store w; file_objects := file_objects w; trace := trace w |}.
Definition with_store (s : Store) (w : World) : World :=
  {| fs := fs w; store := s; file_objects := file_objects w; trace := trace w |}.
Definition with_file_objects (l : list FileObj) (w : World) : World :=
  {| fs := fs w; store := store w; file_objects := l; trace := trace w |}.

(** The trace is kept newest first; [calls] reads it in order. *)
Definition record (e : event) (w : World) : World :=
  {| fs := fs w; store := store w; file_objects := file_objects w; trace := e :: trace w |}.
Definition calls (w : World) : list event := rev (trace w).

(** ** The monad: state that survives exceptions *)

Inductive outcome (A : Type) :=
| Ret (a : A)
| Raise (e : exn).
Arguments Ret {A} a.
Arguments Raise {A} e.

Definition M (A : Type) : Type := World -> outcome A * World.

Definition ret {A} (a : A) : M A := fun w => (Ret a, w).
Definition raise {A} (e : exn) : M A := fun w => (Raise e, w).
Definition bind {A B} (m : M A) (k : A -> M B) : M B :=
  fun w => match m w with
           | (Ret a, w') => k a w'
           | (Raise e, w') => (Raise e, w')
           end.
Definition get : M World := fun w => (Ret w, w).
Definition modify (f : World -> World) : M unit := fun w => (Ret tt, f w).
Definition emit (e : event) : M unit := modify (record e).

(** [try: m except: h] with a bare [except]. *)
Definition try_except {A} (m : M A) (h : exn -> M A) : M A :=
  fun w => match m w with
           | (Ret a, w') => (Ret a, w')
           | (Raise e, w') => h e w'
           end.

(** [try: m finally: f]: [f] runs either way and its exception wins.  It
    is given what the body returned, if it did: the variables the body
    assigns keep their earlier values otherwise. *)
Definition try_finally {A} (m : M A) (f : option A -> M unit) : M A :=
  fun w => match m w with
           | (Ret a, w') =>
               match f (Some a) w' with
               | (Ret _, w'') => (Ret a, w'')
               | (Raise e, w'') => (Raise e, w'')
               end
           | (Raise e, w') =>
               match f None w' with
               | (Ret _, w'') => (Raise e, w'')
               | (Raise e', w'') => (Raise e', w'')
               end
           end.

Declare Scope py_scope.
Delimit Scope py_scope with py.
Notation "x <- m ;; k" := (bind m (fun x => k))
  (at level 100, m at next level, right associativity) : py_scope.
Notation "m ;; k" := (bind m (fun _ => k))
  (at level 100, right associativity) : py_scope.
Local Open Scope py_scope.

Fixpoint for_each {A} (l : list A) (body : A -> M unit) : M unit :=
  match l with
  | [] => ret tt
  | x :: r => body x ;; for_each r body
  end.

(** ** Collaborators

    What the pipeline calls but [ingest.py] does not define.  Each field is
    the observable behaviour of one call; theorems hold for every choice. *)

(** The dictionary returned by [imaging.thumbnail]. *)
Record ThumbData := {
  analysis_std_out : string;
  analysis_std_err : string;
  convert : string;
  status_code : Z;
  td_exists : bool;
  td_islink : bool;
  td_size : Z;
  std_err : string;
  dest : Py.val }.

Record Collab := {
  (* config *)
  LOG_DIR : string;
  MEDIA_BASE : string;
  ACCESS_FILE_GEOMETRY : string;
  (* datetime.now(config.TZ).isoformat('T'), by the number of calls made *)
  now : nat -> string;
  (* os.access *)
  os_access : gmap string node -> string -> access_mode -> bool;
  (* util.file_hash: a hex digest, or nothing *)
  file_hash : gmap string node -> string -> string -> option string;
  (* imaging.extract_xmp *)
  extract_xmp : gmap string node -> string -> Py.val;
  (* imaging.thumbnail: raises or returns its report; either way the
     external process may have touched the disk *)
  thumbnail : gmap string node -> string -> string -> string ->
              (exn + ThumbData) * gmap string node;
  (* traceback.format_exc().strip() *)
  format_exc : exn -> string;
  (* identifier.Identifier.child('file', idparts, basepath) *)
  child : Identifier -> string -> string -> Identifier;
  (* file_class.access_filename *)
  access_filename : string -> string;
  (* file_class(path_abs=..., identifier=...): the fresh object's attributes *)
  file_init : string -> Identifier -> FileObj;
  (* File.set_access(access_path, entity) *)
  set_access : FileObj -> string -> Entity -> FileObj;
  (* File.dump_json and Entity.dump_json *)
  dump_json : FileObj -> string;
  entity_dump_json : Entity -> list FileObj -> string;
  (* File.identifier.path_abs('access') and Identifier(id, basepath) *)
  access_final : FileObj -> string;
  identifier_of : Py.val -> string -> Identifier;
  (* str() of objects and dictionaries *)
  identifier_str : Identifier -> string;
  file_str : FileObj -> string;
  dict_str : gmap string Py.val -> string;
  repo_str : string -> string;
  (* dvcs.stage and dvcs.annex_stage: may raise *)
  dvcs_stage : list Py.val -> Store -> gmap string node ->
               option exn * Store * gmap string node;
  dvcs_annex_stage : list Py.val -> Store -> gmap string node ->
                     option exn * Store * gmap string node;
  (* dvcs.commit *)
  dvcs_commit : string -> string -> Store -> Commit * Store;
  (* changelog.write_changelog_entry *)
  write_changelog_entry : string -> list string -> string -> string ->
                          gmap string node -> gmap string node }.

Definition newline : string := String (ascii_of_nat 10) "".

Section Pipeline.

Variable E : Collab.

(** *** [os], [shutil], [fileio] *)

Definition os_path_exists (p : string) : M bool :=
  w <- get ;;
  let r := Fs.exists_ (fs w) p in
  emit (EvExists p r) ;; ret r.

Definition os_path_islink (p : string) : M bool :=
  w <- get ;;
  let r := Fs.islink (fs w) p in
  emit (EvIslink p r) ;; ret r.

Definition os_access_ (p : string) (mode : access_mode) : M bool :=
  w <- get ;;
  let r := os_access E (fs w) p mode in
  emit (EvAccess p mode r) ;; ret r.

(** [os.makedirs]: refuses a path that is already there. *)
Definition os_makedirs (p : string) : M unit :=
  emit (EvMakedirs p) ;;
  w <- get ;;
  if Fs.lexists (fs w) p then raise (OSError p)
  else modify (with_fs (<[p := Dir]> (fs w))).

(** [os.path.getsize]; a directory counts for nothing here. *)
Definition os_path_getsize (p : string) : M Z :=
  emit (EvGetsize p) ;;
  w <- get ;;
  match Fs.stat (fs w) p with
  | Some (File c) => ret (Z.of_nat (String.length c))
  | Some _ => ret 0%Z
  | None => raise (OSError p)
  end.

Definition os_chmod (p : string) : M unit :=
  emit (EvChmod p) ;;
  w <- get ;;
  if Fs.exists_ (fs w) p then ret tt else raise (OSError p).

(** Where a write through [p] lands: links are followed. *)
Definition open_for_write (p : string) (text : string) : M unit :=
  w <- get ;;
  match Fs.follow 40 (fs w) p with
  | None => raise (IOError p)
  | Some q =>
      match fs w !! q with
      | Some Dir => raise (IOError p)
      | _ => modify (with_fs (<[q := File text]> (fs w)))
      end
  end.

(** [shutil.copy(src, dst)] *)
Definition shutil_copy (src dst : string) : M unit :=
  emit (EvCopy src dst) ;;
  w <- get ;;
  let real_dst :=
    if Fs.isdir (fs w) dst then OsPath.join2 dst (OsPath.basename src) else dst in
  match Fs.stat (fs w) src with
  | Some (File c) =>
      if bool_decide (Fs.follow 40 (fs w) src = Fs.follow 40 (fs w) real_dst)
      then raise (ShutilError src)
      else open_for_write real_dst c
  | _ => raise (IOError src)
  end.

(** [shutil.move(src, dst)]: a rename; into [dst] when that is a
    directory.  A missing source raises. *)
Definition shutil_move (src dst : string) : M unit :=
  emit (EvMove src dst) ;;
  w <- get ;;
  if Fs.isdir (fs w) dst && bool_decide (src = dst) then ret tt
  else
    let real_dst :=
      if Fs.isdir (fs w) dst then OsPath.join2 dst (OsPath.basename src) else dst in
    if Fs.isdir (fs w) dst && Fs.exists_ (fs w) real_dst
    then raise (ShutilError real_dst)
    else
      match fs w !! src with
      | None => raise (IOError src)
      | Some n => modify (with_fs (<[real_dst := n]> (delete src (fs w))))
      end.

(** [fileio.write_text(text, path)] *)
Definition fileio_write_text (text p : string) : M unit :=
  emit (EvWriteText p) ;;
  open_for_write p text.

(** *** [AddFileLogger] *)

Record AddFileLogger := { logpath : string }.

(** The line [entry] formats. *)
Definition entry_line (ts ok msg : string) : string :=
  "[" +:+ ts +:+ "] " +:+ ok +:+ " - " +:+ msg +:+ newline.

(** What a call has appended to the file at [p], if anything. *)
Definition appended (p : string) (e : event) : string :=
  match e with
  | EvLog q ts ok msg => if bool_decide (q = p) then entry_line ts ok msg else ""
  | _ => ""
  end.

(** The text of the journal at [p]: the lines appended, in order. *)
Definition journal (p : string) (t : list event) : string :=
  foldr (fun e acc => appended p e +:+ acc) "" t.

Definition entry (log : AddFileLogger) (ok msg : string) : M unit :=
  w <- get ;;
  emit (EvLog (logpath log) (now E (length (trace w))) ok msg).

Definition ok (log : AddFileLogger) (msg : string) : M unit := entry log "ok" msg.
Definition not_ok (log : AddFileLogger) (msg : string) : M unit := entry log "not ok" msg.

Definition crash {A} (log : AddFileLogger) (msg : string) (exception : exn_class) : M A :=
  not_ok log msg ;;
  raise (instantiate exception msg).

Definition _log_path (identifier : Identifier) (base_dir : string) : string :=
  OsPath.join base_dir
    ["addfile"; collection_id identifier; id identifier +:+ ".log"].

Definition addfile_logger (identifier : option Identifier) (log_path : option string)
           (base_dir : string) : M AddFileLogger :=
  match identifier, log_path with
  | None, None => raise AssertionError
  | None, Some "" => raise AssertionError
  | _, _ =>
      let log :=
        match identifier with
        | Some i => {| logpath := _log_path i base_dir |}
        | None => {| logpath := default "" log_path |}
        end in
      let logdir := OsPath.dirname (logpath log) in
      b <- os_path_exists logdir ;;
      (if negb b then os_makedirs logdir else ret tt) ;;
      ret log
  end.

(** *** Dynamically typed arguments *)

(** A path handed to [os] or [shutil] must be a string. *)
Definition path_arg (v : Py.val) : M string :=
  match v with
  | Py.VStr s => ret s
  | _ => raise (TypeError "coercing to Unicode: need string or buffer")
  end.

(** The receiver of a string method must be a string. *)
Definition str_method (v : Py.val) (method : string) : M string :=
  match v with
  | Py.VStr s => ret s
  | _ => raise (AttributeError method)
  end.

Definition getattr (o : FileObj) (name : string) : M Py.val :=
  match o !! name with
  | Some v => ret v
  | None => raise (AttributeError name)
  end.

Definition exists_v (v : Py.val) : M bool := p <- path_arg v ;; os_path_exists p.
Definition islink_v (v : Py.val) : M bool := p <- path_arg v ;; os_path_islink p.
Definition move_v (src dst : Py.val) : M unit :=
  s <- path_arg src ;; d <- path_arg dst ;; shutil_move s d.

(** *** The functions of [ingest.py] *)

Definition perm_str (perm : access_mode) : string :=
  match perm with R_OK => "4" | W_OK => "2" end.

Definition check_dir (label path : string) (log : AddFileLogger)
           (mkdir : bool) (perm : access_mode) : M bool :=
  ok log ("check dir " +:+ path +:+ " (" +:+ label +:+ ")") ;;
  (if mkdir
   then b <- os_path_exists path ;; if negb b then os_makedirs path else ret tt
   else ret tt) ;;
  b <- os_path_exists path ;;
  if negb b
  then crash log (label +:+ " does not exist: " +:+ path) ClsFileMissing
  else
    a <- os_access_ path perm ;;
    if negb a
    then crash log (label +:+ " not has " +:+ perm_str perm
                    +:+ " permission: " +:+ path) ClsException
    else ret true.

Definition util_file_hash (src_path algo : string) : M Py.val :=
  emit (EvFileHash src_path algo) ;;
  w <- get ;;
  ret (Py.of_opt (file_hash E (fs w) src_path algo)).

Definition checksums (src_path : string) (log : AddFileLogger)
  : M (Py.val * Py.val * Py.val) :=
  md5 <- util_file_hash src_path "md5" ;;
  ok log ("| md5: " +:+ Py.str md5) ;;
  sha1 <- util_file_hash src_path "sha1" ;;
  ok log ("| sha1: " +:+ Py.str sha1) ;;
  sha256 <- util_file_hash src_path "sha256" ;;
  ok log ("| sha256: " +:+ Py.str sha256) ;;
  (if negb (Py.truthy sha1 && Py.truthy md5 && Py.truthy sha256)
   then crash log "Could not calculate checksums" ClsException
   else ret tt) ;;
  ret (md5, sha1, sha256).

Definition destination_path (src_path dest_dir : string) (fidentifier : Identifier)
  : string :=
  let src_basename := OsPath.basename src_path in
  let src_ext := OsPath.ext src_basename in
  let dest_basename := id fidentifier +:+ src_ext in
  OsPath.join dest_dir [dest_basename].

Definition temporary_path (src_path base_dir : string) (fidentifier : Identifier)
  : string :=
  let src_basename := OsPath.basename src_path in
  OsPath.join base_dir
    ["tmp"; "file-add"; collection_id fidentifier; parent_id fidentifier; src_basename].

Definition temporary_path_renamed (tmp_path dest_path : string) : string :=
  OsPath.join (OsPath.dirname tmp_path) [OsPath.basename dest_path].

Definition access_path (tmp_path_renamed : string) : string :=
  let access_filename := access_filename E tmp_path_renamed in
  OsPath.join (OsPath.dirname tmp_path_renamed) [OsPath.basename access_filename].

Definition copy_to_workdir (src_path tmp_path tmp_path_renamed : string)
           (log : AddFileLogger) : M unit :=
  ok log ("| cp " +:+ src_path +:+ " " +:+ tmp_path) ;;
  shutil_copy src_path tmp_path ;;
  os_chmod tmp_path ;;
  b <- os_path_exists tmp_path ;;
  (if b then ok log "| done" else crash log "Copy failed!" ClsException) ;;
  ok log ("| Renaming " +:+ OsPath.basename tmp_path +:+ " -> "
          +:+ OsPath.basename tmp_path_renamed) ;;
  shutil_move tmp_path tmp_path_renamed ;;
  r <- os_path_exists tmp_path_renamed ;;
  if negb r
  then
    t <- os_path_exists tmp_path ;;
    if negb t
    then crash log ("File rename failed: " +:+ tmp_path +:+ " -> " +:+ tmp_path_renamed)
               ClsException
    else ret tt
  else ret tt.

Definition imaging_thumbnail (src_path access_dest_path : string) : M ThumbData :=
  emit (EvThumbnail src_path access_dest_path) ;;
  w <- get ;;
  match thumbnail E (fs w) src_path access_dest_path (ACCESS_FILE_GEOMETRY E) with
  | (inl e, fs') => modify (with_fs fs') ;; raise e
  | (inr data, fs') => modify (with_fs fs') ;; ret data
  end.

Definition make_access_file (src_path access_dest_path : string)
           (log : AddFileLogger) : M Py.val :=
  ok log ("| " +:+ access_dest_path) ;;
  try_except
    (data <- imaging_thumbnail src_path access_dest_path ;;
     (* identify *)
     ok log ("| identify: " +:+ analysis_std_out data) ;;
     (if negb (String.eqb (analysis_std_err data) "")
      then not_ok log ("| identify: " +:+ analysis_std_err data) else ret tt) ;;
     (* convert *)
     ok log ("| " +:+ convert data) ;;
     ok log ("| convert: status:" +:+ pretty (status_code data)
             +:+ " exists:" +:+ Py.str (Py.VBool (td_exists data))
             +:+ " islink:" +:+ Py.str (Py.VBool (td_islink data))
             +:+ " size:" +:+ pretty (td_size data)) ;;
     (if negb (String.eqb (std_err data) "")
      then not_ok log ("| convert: " +:+ std_err data) else ret tt) ;;
     (if negb (td_exists data)
      then not_ok log "Access file was not created!" else ret tt) ;;
     (if (td_size data =? 0)%Z
      then not_ok log "Dest file created but zero length!" else ret tt) ;;
     (if td_islink data
      then not_ok log "DEST FILE IS A SYMLINK!" else ret tt) ;;
     let tmp_access_path := dest data in
     ok log "| done" ;;
     ret tmp_access_path)
    (fun e =>
       (* write traceback to log and continue on *)
       not_ok log (format_exc E e) ;;
       ret Py.VNone).

Definition write_object_metadata (obj : FileObj) (tmp_dir : string)
           (log : AddFileLogger) : M string :=
  jp <- getattr obj "json_path" ;;
  jp <- str_method jp "rfind" ;;
  let tmp_json := OsPath.join tmp_dir [OsPath.basename jp] in
  ok log ("| " +:+ tmp_json) ;;
  fileio_write_text (dump_json E obj) tmp_json ;;
  b <- os_path_exists tmp_json ;;
  (if negb b
   then crash log ("Could not write file metadata " +:+ tmp_json) ClsException
   else ret tt) ;;
  ret tmp_json.

Fixpoint move_files (files : list (Py.val * Py.val)) (log : AddFileLogger)
  : M (list Py.val) :=
  match files with
  | [] => ret []
  | (tmp, dest) :: rest =>
      ok log ("| mv " +:+ Py.str tmp +:+ " " +:+ Py.str dest) ;;
      move_v tmp dest ;;
      b <- exists_v dest ;;
      if negb b
      then not_ok log "FAIL" ;; ret [tmp]
      else move_files rest log
  end.

Definition reverse_files_list (files : list (Py.val * Py.val))
  : list (Py.val * Py.val) :=
  map (fun p => (p.2, p.1)) files.

Definition str_vals (l : list Py.val) : string :=
  "[" +:+ Py.join_with ", " (map (fun v => match v with
                                           | Py.VStr s => Py.repr_str s
                                           | _ => Py.str v
                                           end) l) +:+ "]".

Definition move_new_files_back (files : list (Py.val * Py.val))
           (failures : list Py.val) (log : AddFileLogger) : M unit :=
  (* one of files failed to copy, so move all back to tmp *)
  (* these are new files *)
  not_ok log (Py.str_nat (length failures) +:+ " failures: " +:+ str_vals failures) ;;
  not_ok log "Moving new files back to tmp_dir" ;;
  let reverse := reverse_files_list files in
  try_finally
    (try_except
       (move_files files log)
       (fun e =>
          let msg := "('Unexpected error:', " +:+ exc_type_repr e +:+ ")" in
          not_ok log msg ;;
          raise e))
    (fun r =>
       let fails := default [] r in
       not_ok log "Failed to place one or more files to destination repo" ;;
       for_each fails (fun fail => not_ok log ("| " +:+ Py.str fail)) ;;
       crash log "Bailing out. We are done here." ClsException) ;;
  ret tt.

(** Names bound at module level in [ingest.py]: its imports, classes and
    functions. *)
Definition module_globals : gmap string Py.val :=
  list_to_map (map (fun n => (n, Py.VObj n))
    ["datetime"; "Exception"; "os"; "shutil"; "sys"; "traceback";
     "changelog"; "config"; "dvcs"; "fileio"; "identifier"; "imaging"; "util";
     "FileExistsException"; "FileMissingException"; "AddFileLogger";
     "_log_path"; "addfile_logger"; "check_dir"; "checksums";
     "destination_path"; "temporary_path"; "temporary_path_renamed";
     "access_path"; "copy_to_workdir"; "make_access_file";
     "write_object_metadata"; "move_files"; "reverse_files_list";
     "move_new_files_back"; "move_existing_files_back"; "predict_staged";
     "stage_files"; "add_local_file"; "add_external_file"; "add_access";
     "add_file_commit"]).

(** A name that is not local to the function is looked up at module
    level (no builtin is called [tmp_entity_json] or [entity]). *)
Definition load_global (name : string) : M Py.val :=
  match module_globals !! name with
  | Some v => ret v
  | None => raise (NameError name)
  end.

(** An attribute of an object that is not a [File]: only [VObj]s can be
    found by [load_global], and they have no [json_path]. *)
Definition getattr_v (v : Py.val) (name : string) : M Py.val :=
  raise (AttributeError name).

(** Arguments as a call site passes them. *)
Inductive arg :=
| ArgFiles (files : list (Py.val * Py.val))
| ArgVals (l : list Py.val)
| ArgLog (log : AddFileLogger).

(** The body of [move_existing_files_back(files, log)]. *)
Definition move_existing_files_back (files : arg) (log : AddFileLogger) : M unit :=
  (* these are files that already exist in repo *)
  tmp_entity_json <- load_global "tmp_entity_json" ;;
  entity <- load_global "entity" ;;
  entity_json_path <- getattr_v entity "json_path" ;;
  ok log ("| mv " +:+ Py.str tmp_entity_json +:+ " " +:+ Py.str entity_json_path) ;;
  move_v tmp_entity_json entity_json_path ;;
  b <- exists_v entity_json_path ;;
  if negb b
  then crash log "Failed to place entity.json in destination repo" ClsException
  else ret tt.

(** Calling [move_existing_files_back]: the interpreter first matches the
    arguments against the two parameters [files, log]; the body then
    runs, and looks up [log.ok] before the arguments of that call. *)
Definition call_move_existing_files_back (args : list arg) : M unit :=
  match args with
  | [files; ArgLog log] => move_existing_files_back files log
  | [_; _] => raise (AttributeError "ok")
  | _ => raise (TypeError ("move_existing_files_back() takes exactly 2 arguments ("
                           +:+ Py.str_nat (length args) +:+ " given)"))
  end.

(** [predict_staged(already, planned)] *)
Definition predict_staged {A} `{EqDecision A} (already planned : list A) : list A :=
  let additions := filter (fun path => path ∉ already) planned in
  let total := already ++ additions in
  total.

(** *** [dvcs], [imaging], [changelog] and the entity *)

Definition dvcs_repository (p : string) : M string :=
  emit (EvRepository p) ;; ret p.

Definition dvcs_list_staged : M (list string) :=
  w <- get ;;
  let r := staged (store w) in
  emit (EvListStaged r) ;; ret r.

Definition dvcs_list_modified : M (list string) :=
  w <- get ;;
  let r := modified (store w) in
  emit (EvListModified r) ;; ret r.

Definition run_store (r : option exn * Store * gmap string node) : M unit :=
  modify (fun w => with_fs r.2 (with_store r.1.2 w)) ;;
  match r.1.1 with
  | Some e => raise e
  | None => ret tt
  end.

Definition dvcs_stage_ (files : list Py.val) : M unit :=
  emit (EvStage files) ;;
  w <- get ;;
  run_store (dvcs_stage E files (store w) (fs w)).

Definition dvcs_annex_stage_ (files : list Py.val) : M unit :=
  emit (EvAnnexStage files) ;;
  w <- get ;;
  run_store (dvcs_annex_stage E files (store w) (fs w)).

Definition dvcs_commit_ (msg agent : string) : M Commit :=
  emit (EvCommit msg agent) ;;
  w <- get ;;
  let r := dvcs_commit E msg agent (store w) in
  modify (with_store r.2) ;;
  ret r.1.

Definition dvcs_list_committed (commit : Commit) : M (list string) :=
  emit (EvListCommitted (hexsha commit)) ;; ret (committed commit).

Definition changelog_write_changelog_entry (p : string) (messages : list string)
           (user mail : string) : M unit :=
  emit (EvWriteChangelog p) ;;
  modify (fun w => with_fs (write_changelog_entry E p messages user mail (fs w)) w).

Definition imaging_extract_xmp (p : string) : M Py.val :=
  emit (EvExtractXmp p) ;;
  w <- get ;;
  ret (extract_xmp E (fs w) p).

(** [entity._file_objects.append(file_)] *)
Definition file_objects_append (file_ : FileObj) : M unit :=
  emit (EvAppendChild file_) ;;
  modify (fun w => with_file_objects (file_objects w ++ [file_]) w).

(** [entity.write_json(force=True)]: the entity with its present children. *)
Definition entity_write_json (entity : Entity) : M unit :=
  emit (EvEntityWriteJson (json_path entity)) ;;
  w <- get ;;
  open_for_write (json_path entity) (entity_dump_json E entity (file_objects w)).

Definition stage_files (entity : Entity) (git_files annex_files : list Py.val)
           (new_files : list (Py.val * Py.val)) (log : AddFileLogger)
           (show_staged : bool) : M string :=
  repo <- dvcs_repository (collection_path entity) ;;
  ok log ("| repo " +:+ repo_str E repo) ;;
  (* These vars will be used to determine if stage operation is successful. *)
  let stage_planned := git_files ++ annex_files in
  stage_already <- dvcs_list_staged ;;
  let stage_already := Py.VStr <$> stage_already in
  let stage_predicted := predict_staged stage_already stage_planned in
  let stage_new := filter (fun x => x ∉ stage_already) stage_planned in
  ok log ("| " +:+ Py.str_nat (length stage_planned) +:+ " files to stage:") ;;
  for_each stage_planned (fun sp => ok log ("|   " +:+ Py.str sp)) ;;
  try_finally
    (try_except
       (ok log "git stage" ;;
        dvcs_stage_ git_files ;;
        ok log "annex stage" ;;
        dvcs_annex_stage_ annex_files ;;
        ok log "ok" ;;
        dvcs_list_staged)
       (fun e =>
          (* FAILED! print traceback to addfile log *)
          not_ok log (format_exc E e) ;;
          ret []))
    (fun r =>
       let staged := default [] r in
       (if show_staged
        then
          ok log ("| " +:+ Py.str_nat (length staged) +:+ " files staged:") ;;
          ok log ("show_staged " +:+ Py.str (Py.VBool show_staged)) ;;
          for_each staged (fun sp => ok log ("|   " +:+ sp))
        else ret tt) ;;
       stage_ok <-
         (if bool_decide (length staged = length stage_predicted)
          then
            ok log ("| " +:+ Py.str_nat (length staged) +:+ " files staged ("
                    +:+ Py.str_nat (length stage_new) +:+ " new, "
                    +:+ Py.str_nat (length stage_already) +:+ " modified)") ;;
            ret true
          else
            not_ok log (Py.str_nat (length staged) +:+ " new files staged (should be "
                        +:+ Py.str_nat (length stage_predicted) +:+ ")") ;;
            ret false) ;;
       if negb stage_ok
       then
         not_ok log "File staging aborted. Cleaning up" ;;
         (* try to pick up the pieces: mv files back to tmp_dir *)
         for_each new_files
           (fun p =>
              let tmp := p.1 in
              let dest := p.2 in
              l <- islink_v dest ;;
              if l
              then not_ok log ("| link (not moving) " +:+ Py.str dest)
              else not_ok log ("| mv " +:+ Py.str dest +:+ " " +:+ Py.str tmp) ;;
                   move_v dest tmp) ;;
         not_ok log "finished cleanup. good luck..." ;;
         crash log ("Add file aborted, see log file for details: " +:+ logpath log)
               ClsException
       else ret tt) ;;
  ret repo.

Definition dashes : string :=
  "------------------------------------------------------------------------".

(** [if log_path: ... else: ...] at the head of the three entry points. *)
Definition open_log (entity : Entity) (log_path : option string) : M AddFileLogger :=
  if Py.truthy (Py.of_opt log_path)
  then addfile_logger None log_path (LOG_DIR E)
  else addfile_logger (Some (identifier entity)) None (LOG_DIR E).

(** [x and os.path.exists(x)] *)
Definition truthy_and_exists (v : Py.val) : M bool :=
  if Py.truthy v then exists_v v else ret false.

Definition add_local_file (entity : Entity) (src_path role : string)
           (data : gmap string Py.val) (git_name git_mail agent : string)
           (log_path : option string) (show_staged : bool)
  : M (FileObj * string * AddFileLogger) :=
  log <- open_log entity log_path ;;

  ok log dashes ;;
  ok log "DDR.models.Entity.add_file: START" ;;
  ok log ("entity: " +:+ entity_id entity) ;;
  ok log ("data: " +:+ dict_str E data) ;;

  ok log "Examining source file" ;;
  check_dir "| src_path" src_path log false R_OK ;;

  src_size <- os_path_getsize src_path ;;
  ok log ("| file size " +:+ pretty src_size) ;;

  sums <- checksums src_path log ;;
  let md5 := sums.1.1 in
  let sha1 := sums.1.2 in
  let sha256 := sums.2 in

  ok log "| extracting XMP data" ;;
  xmp <- imaging_extract_xmp src_path ;;

  ok log "Identifier" ;;
  (* note: we can't make this until we have the sha1 *)
  sha1_text <- match sha1 with
               | Py.VStr s => ret s
               | _ => raise (TypeError "object has no attribute '__getitem__'")
               end ;;
  let idparts : gmap string Py.val :=
    <["role" := Py.VStr role]> (<["sha1" := Py.VStr (Py.prefix 10 sha1_text)]> ∅) in
  ok log ("| idparts " +:+ dict_str E idparts) ;;
  emit (EvIdentifierChild role (Py.prefix 10 sha1_text)) ;;
  let fidentifier := child E (identifier entity) role (Py.prefix 10 sha1_text) in
  ok log ("| identifier " +:+ identifier_str E fidentifier) ;;
  (* remove 'id' from forms/CSV data so it doesn't overwrite file_.id later *)
  let data := if Py.truthy (default Py.VNone (data !! "id"))
              then delete "id" data else data in

  let dest_path := destination_path src_path (files_path entity) fidentifier in
  let tmp_path := temporary_path src_path (MEDIA_BASE E) fidentifier in
  let tmp_dir := OsPath.dirname tmp_path in
  let tmp_path_renamed := temporary_path_renamed tmp_path dest_path in
  let access_dest_path := access_path tmp_path_renamed in
  let dest_dir := OsPath.dirname dest_path in

  ok log "Checking files/dirs" ;;
  there <- os_path_exists dest_path ;;
  (if there
   then crash log ("Can't add '" +:+ OsPath.basename src_path
                   +:+ "'. Already exists: '" +:+ id fidentifier +:+ "'!")
              ClsFileExists
   else ret tt) ;;
  check_dir "| tmp_dir" tmp_dir log true W_OK ;;
  check_dir "| dest_dir" dest_dir log true W_OK ;;

  ok log "Copying to work dir" ;;
  copy_to_workdir src_path tmp_path tmp_path_renamed log ;;

  ok log "Making access file" ;;
  there <- os_path_exists access_dest_path ;;
  (if there
   then not_ok log ("Access tmpfile already exists: " +:+ access_dest_path)
   else ret tt) ;;
  tmp_access_path <- make_access_file src_path access_dest_path log ;;

  ok log "File object" ;;
  let file_ := file_init E dest_path fidentifier in
  let file_ := <["basename_orig" := Py.VStr (OsPath.basename src_path)]> file_ in
  (* add extension to path_abs *)
  let basename_ext := OsPath.ext (OsPath.basename src_path) in
  path_abs <- getattr file_ "path_abs" ;;
  path_abs <- str_method path_abs "rfind" ;;
  let path_abs_ext := OsPath.ext path_abs in
  file_ <- (if negb (String.eqb basename_ext "") && String.eqb path_abs_ext ""
            then ok log ("| basename_ext " +:+ basename_ext) ;;
                 ret (<["path_abs" := Py.VStr (path_abs +:+ basename_ext)]> file_)
            else ret file_) ;;
  let file_ := <["size" := Py.VInt src_size]> file_ in
  let file_ := <["role" := Py.VStr role]> file_ in
  let file_ := <["sha1" := sha1]> file_ in
  let file_ := <["md5" := md5]> file_ in
  let file_ := <["sha256" := sha256]> file_ in
  let file_ := <["xmp" := xmp]> file_ in
  ok log ("| file_ " +:+ file_str E file_) ;;
  v <- getattr file_ "basename_orig" ;;
  ok log ("| file_.basename_orig: " +:+ Py.str v) ;;
  v <- getattr file_ "path_abs" ;;
  ok log ("| file_.path_abs: " +:+ Py.str v) ;;
  v <- getattr file_ "size" ;;
  ok log ("| file_.size: " +:+ Py.str v) ;;
  (* form data *)
  let file_ := data ∪ file_ in
  (* Batch import CSV files often have the ID of the file-role or entity
     instead of the file. Add file ID again to make sure the field has
     the correct value. *)
  let file_ := <["id" := Py.VStr (id fidentifier)]> file_ in

  ok log "Attaching access file" ;;
  has_access <- truthy_and_exists tmp_access_path ;;
  file_ <- (if has_access
            then
              emit (EvSetAccess (Py.str tmp_access_path)) ;;
              let file_ := set_access E file_ (Py.str tmp_access_path) entity in
              v <- getattr file_ "access_rel" ;;
              ok log ("| file_.access_rel: " +:+ Py.str v) ;;
              v <- getattr file_ "access_abs" ;;
              ok log ("| file_.access_abs: " +:+ Py.str v) ;;
              ret file_
            else
              not_ok log "no access file" ;;
              ret file_) ;;

  ok log "Attaching file to entity" ;;
  file_objects_append file_ ;;
  w <- get ;;
  (if bool_decide (file_ ∈ file_objects w)
   then ok log "| done"
   else crash log "Could not add file to entity.files!" ClsException) ;;

  ok log "Writing object metadata" ;;
  tmp_file_json <- write_object_metadata file_ tmp_dir log ;;
  (* write entity.json after adding binaries and updating file.json *)

  (* WE ARE NOW MAKING CHANGES TO THE REPO ------------------------ *)

  ok log "Moving files to dest_dir" ;;
  file_json_path <- getattr file_ "json_path" ;;
  file_path_abs <- getattr file_ "path_abs" ;;
  let new_files := [(Py.VStr tmp_file_json, file_json_path)] in
  let new_files := new_files ++ [(Py.VStr tmp_path_renamed, file_path_abs)] in
  has_access <- truthy_and_exists tmp_access_path ;;
  new_files <- (if has_access
                then
                  file_access_abs <- getattr file_ "access_abs" ;;
                  ret (new_files ++ [(tmp_access_path, file_access_abs)])
                else ret new_files) ;;
  mvnew_fails <- move_files new_files log ;;
  (match mvnew_fails with
   | _ :: _ =>
       not_ok log "Failed to place one or more new files to destination repo" ;;
       move_new_files_back new_files mvnew_fails log
   | [] => ok log "| all files moved"
   end) ;;

  (* entity metadata will only be written if everything else was moved *)
  ok log "Writing entity.json" ;;
  entity_write_json entity ;;

  ok log "Staging files" ;;
  file_json_path_rel <- getattr file_ "json_path_rel" ;;
  let git_files := [Py.VStr (json_path_rel entity); file_json_path_rel] in
  file_path_abs <- getattr file_ "path_abs" ;;
  file_path_abs <- str_method file_path_abs "replace" ;;
  file_collection_path <- getattr file_ "collection_path" ;;
  let annex_files :=
    [Py.VStr (Py.remove_all (Py.str file_collection_path +:+ "/") file_path_abs)] in
  file_access_abs <- getattr file_ "access_abs" ;;
  has_access <- truthy_and_exists file_access_abs ;;
  annex_files <- (if has_access
                  then
                    file_access_abs <- str_method file_access_abs "replace" ;;
                    file_collection_path <- getattr file_ "collection_path" ;;
                    ret (annex_files ++
                         [Py.VStr (Py.remove_all (Py.str file_collection_path +:+ "/")
                                                 file_access_abs)])
                  else ret annex_files) ;;
  repo <- stage_files entity git_files annex_files new_files log show_staged ;;

  (* IMPORTANT: Files are only staged! Be sure to commit! *)
  (* IMPORTANT: changelog is not staged! *)
  ret (file_, repo, log).

(** [os.path.realpath] *)
Definition os_path_realpath (p : string) : M string :=
  w <- get ;; ret (default p (Fs.follow 40 (fs w) p)).

Definition add_access (entity : Entity) (ddrfile : FileObj) (src_path : string)
           (git_name git_mail agent : string) (log_path : option string)
           (show_staged : bool)
  : M (FileObj * option string * AddFileLogger * string) :=
  let repo : option string := None in
  log <- open_log entity log_path ;;

  ok log dashes ;;
  ok log "DDR.models.Entity.add_access: START" ;;
  ok log ("entity: " +:+ entity_id entity) ;;
  ok log ("ddrfile: " +:+ file_str E ddrfile) ;;

  ok log "Checking files/dirs" ;;
  check_dir "| src_path" src_path log false R_OK ;;

  ok log "Identifier" ;;
  ddrfile_id <- getattr ddrfile "id" ;;
  ok log ("| file_id " +:+ Py.str ddrfile_id) ;;
  ok log ("| basepath " +:+ basepath (identifier entity)) ;;
  let fidentifier := identifier_of E ddrfile_id (basepath (identifier entity)) in
  ok log ("| identifier " +:+ identifier_str E fidentifier) ;;

  let dest_path := destination_path src_path (files_path entity) fidentifier in
  let tmp_path := temporary_path src_path (MEDIA_BASE E) fidentifier in
  let tmp_path_renamed := temporary_path_renamed tmp_path dest_path in
  let access_dest_path := access_path tmp_path_renamed in
  let dest_dir := OsPath.dirname dest_path in
  let tmp_dir := OsPath.dirname tmp_path in
  (* this is the final path of the access file *)
  let access_final_path := access_final E ddrfile in

  ok log "Checking files/dirs" ;;
  check_dir "| tmp_dir" tmp_dir log true W_OK ;;
  check_dir "| dest_dir" dest_dir log true W_OK ;;

  ok log "Making access file" ;;
  tmp_access_path <- make_access_file src_path access_dest_path log ;;

  ok log "File object" ;;
  let file_ := ddrfile in
  ok log ("| file_ " +:+ file_str E file_) ;;

  (* if new tmp_access_path and access_dest_path are same, declare success and quit *)
  there <- os_path_exists access_final_path ;;
  existing_sha1 <- (if there
                    then
                      access_final_path_real <- os_path_realpath access_final_path ;;
                      h <- util_file_hash access_final_path_real "sha1" ;;
                      ok log ("| existing_sha1: " +:+ Py.str h) ;;
                      ret h
                    else ret Py.VNone) ;;
  there <- os_path_exists access_dest_path ;;
  tmp_sha1 <- (if there
               then
                 h <- util_file_hash access_dest_path "sha1" ;;
                 ok log ("| tmp_sha1:      " +:+ Py.str h) ;;
                 ret h
               else ret Py.VNone) ;;
  if bool_decide (tmp_sha1 = existing_sha1)
  then
    ok log "New access file same as existing. Nothing to see here, move along." ;;
    ret (file_, repo, log, "pass")
  else

  ok log "Writing object metadata" ;;
  tmp_file_json <- write_object_metadata file_ tmp_dir log ;;

  (* WE ARE NOW MAKING CHANGES TO THE REPO ------------------------ *)

  ok log "Moving files to dest_dir" ;;
  has_access <- truthy_and_exists tmp_access_path ;;
  new_files <- (if has_access
                then
                  file_access_abs <- getattr file_ "access_abs" ;;
                  ret [(tmp_access_path, file_access_abs)]
                else ret []) ;;
  mvnew_fails <- move_files new_files log ;;
  (match mvnew_fails with
   | _ :: _ =>
       not_ok log "Failed to place one or more new files to destination repo" ;;
       move_new_files_back new_files mvnew_fails log
   | [] => ok log "| all files moved"
   end) ;;

  (* file metadata will only be copied if everything else was moved *)
  ok log "Moving file .json to dest_dir" ;;
  file_json_path <- getattr file_ "json_path" ;;
  let existing_files := [(Py.VStr tmp_file_json, file_json_path)] in
  mvold_fails <- move_files existing_files log ;;
  (match mvold_fails with
   | _ :: _ =>
       not_ok log "Failed to update metadata in destination repo" ;;
       call_move_existing_files_back
         [ArgFiles existing_files; ArgVals mvold_fails; ArgLog log]
   | [] => ok log "| all files moved"
   end) ;;

  ok log "Staging files" ;;
  file_json_path_rel <- getattr file_ "json_path_rel" ;;
  let git_files := [file_json_path_rel] in
  file_access_rel <- getattr file_ "access_rel" ;;
  let annex_files := [file_access_rel] in
  repo <- stage_files entity git_files annex_files new_files log show_staged ;;

  (* IMPORTANT: Files are only staged! Be sure to commit! *)
  (* IMPORTANT: changelog is not staged! *)
  ret (file_, Some repo, log, "continue").

Definition logger_str (log : AddFileLogger) : string :=
  "<DDR.ingest.AddFileLogger '" +:+ logpath log +:+ "'>".

Definition add_file_commit (entity : Entity) (file_ : FileObj) (repo : string)
           (log : AddFileLogger) (git_name git_mail agent : string)
  : M (FileObj * string * AddFileLogger) :=
  ok log ("add_file_commit(" +:+ file_str E file_ +:+ ", " +:+ repo_str E repo
          +:+ ", " +:+ logger_str log +:+ ", " +:+ git_name +:+ ", " +:+ git_mail
          +:+ ", " +:+ agent +:+ ")") ;;
  staged <- dvcs_list_staged ;;
  modified <- dvcs_list_modified ;;
  if negb (bool_decide (staged = [])) && bool_decide (modified = [])
  then
    ok log "All files staged." ;;
    ok log "Updating changelog" ;;
    file_path_abs <- getattr file_ "path_abs" ;;
    file_path_abs <- str_method file_path_abs "replace" ;;
    let path_ := Py.remove_all (path entity +:+ "/") file_path_abs in
    let changelog_messages := ["Added entity file " +:+ path_] in
    let changelog_messages :=
      if negb (String.eqb agent "")
      then changelog_messages ++ ["@agent: " +:+ agent]
      else changelog_messages in
    changelog_write_changelog_entry
      (changelog_path entity) changelog_messages git_name git_mail ;;
    ok log ("git add " +:+ changelog_path_rel entity) ;;
    let git_files := [Py.VStr (changelog_path_rel entity)] in
    dvcs_stage_ git_files ;;

    ok log "Committing" ;;
    commit <- dvcs_commit_ "Added entity file(s)" agent ;;
    ok log ("commit: " +:+ hexsha commit) ;;
    committed <- dvcs_list_committed commit ;;
    let committed := merge_sort String.le committed in
    ok log "files committed:" ;;
    for_each committed (fun f => ok log ("| " +:+ f)) ;;
    ret (file_, repo, log)
  else
    not_ok log (Py.str_nat (length staged) +:+ " files staged, "
                +:+ Py.str_nat (length modified) +:+ " files modified") ;;
    not_ok log ("staged " +:+ Py.str_list staged) ;;
    not_ok log ("modified " +:+ Py.str_list modified) ;;
    not_ok log "Can not commit!" ;;
    raise (Exception ("Could not commit bc " +:+ Py.str_nat (length modified)
                      +:+ " unstaged files: " +:+ Py.str_list modified)).

End Pipeline.

(** A batch of (scratch, destination) paths, as the pipeline passes it. *)
Definition as_pairs (batch : list (string * string)) : list (Py.val * Py.val) :=
  map (fun p => (Py.VStr p.1, Py.VStr p.2)) batch.

(** * Concrete scenarios

    A small collection, used to run the pipeline on explicit inputs. *)

Module Demo.

Definition ident : Identifier :=
  {| id := "ddr-test-1-1"; collection_id := "ddr-test-1";
     parent_id := "ddr-test-1"; basepath := "/media/ddr" |}.

Definition entity : Entity :=
  {| entity_id := "ddr-test-1-1";
     identifier := ident;
     path := "/media/ddr/ddr-test-1/files/ddr-test-1-1";
     collection_path := "/media/ddr/ddr-test-1";
     files_path := "/media/ddr/ddr-test-1/files/ddr-test-1-1/files";
     json_path := "/media/ddr/ddr-test-1/files/ddr-test-1-1/entity.json";
     json_path_rel := "files/ddr-test-1-1/entity.json";
     changelog_path := "/media/ddr/ddr-test-1/files/ddr-test-1-1/changelog";
     changelog_path_rel := "files/ddr-test-1-1/changelog" |}.

(** A toy digest: the algorithm's name and the content; none for what is
    not a regular file. *)
Definition digest (fs : gmap string node) (p algo : string) : option string :=
  match Fs.stat fs p with
  | Some (File c) => Some (algo +:+ ":" +:+ c)
  | _ => None
  end.

Definition file_of (path_abs : string) (i : Identifier) : FileObj :=
  list_to_map
    [("path_abs", Py.VStr path_abs);
     ("json_path", Py.VStr (OsPath.join (files_path entity) [id i +:+ ".json"]));
     ("json_path_rel", Py.VStr ("files/ddr-test-1-1/files/" +:+ id i +:+ ".json"));
     ("collection_path", Py.VStr (collection_path entity));
     ("access_rel", Py.VNone);
     ("access_abs", Py.VNone)].

Definition with_access (f : FileObj) (access_path : string) (e : Entity) : FileObj :=
  <["access_rel" := Py.VStr (OsPath.basename access_path)]>
    (<["access_abs" := Py.VStr (OsPath.join (files_path e) [OsPath.basename access_path])]> f).

(** A store whose index takes every path staged, once. *)
Definition stage (files : list Py.val) (s : Store) (fs : gmap string node)
  : option exn * Store * gmap string node :=
  (None,
   {| staged := staged s ++ filter (fun p => p ∉ staged s) (map Py.str files);
      modified := modified s; history := history s |},
   fs).

Definition commit (msg agent : string) (s : Store) : Commit * Store :=
  let c := {| hexsha := "c0ffee"; committed := staged s |} in
  (c, {| staged := []; modified := modified s; history := history s ++ [c] |}).

(** The collaborators, given what the external transform and the two
    registration mechanisms do. *)
Definition collab_with
  (thumb : gmap string node -> string -> string -> string ->
           (exn + ThumbData) * gmap string node)
  (git annex : list Py.val -> Store -> gmap string node ->
               option exn * Store * gmap string node) : Collab :=
  {| LOG_DIR := "/var/log/ddr";
     MEDIA_BASE := "/media";
     ACCESS_FILE_GEOMETRY := "1024x1024>";
     now := fun n => "2016-03-01T12:00:" +:+ pretty n;
     os_access := fun fs p _ => Fs.exists_ fs p;
     file_hash := digest;
     extract_xmp := fun _ _ => Py.VNone;
     thumbnail := thumb;
     format_exc := fun e => "Traceback (most recent call last): " +:+ exc_type_repr e;
     child := fun parent role sha1 =>
                {| id := id parent +:+ "-" +:+ role +:+ "-" +:+ sha1;
                   collection_id := collection_id parent;
                   parent_id := id parent;
                   basepath := basepath parent |};
     access_filename := fun p => p +:+ "-a.jpg";
     file_init := file_of;
     set_access := with_access;
     dump_json := fun f => "{file}";
     entity_dump_json := fun _ l => "{entity with " +:+ pretty (length l) +:+ " files}";
     access_final := fun f => "/media/ddr/ddr-test-1/files/ddr-test-1-1/files/x-a.jpg";
     identifier_of := fun v b =>
                        {| id := Py.str v; collection_id := "ddr-test-1";
                           parent_id := "ddr-test-1-1"; basepath := b |};
     identifier_str := fun i => "<Identifier " +:+ id i +:+ ">";
     file_str := fun f => "<File>";
     dict_str := fun d => "{...}";
     repo_str := fun r => "<git.Repo '" +:+ r +:+ "'>";
     dvcs_stage := git;
     dvcs_annex_stage := annex;
     dvcs_commit := commit;
     write_changelog_entry := fun p msgs user mail fs => <[p := File "changelog"]> fs |}.

Definition collab thumb : Collab := collab_with thumb stage stage.

(** git-annex is not installed: its registration raises. *)
Definition annex_missing (files : list Py.val) (s : Store) (fs : gmap string node)
  : option exn * Store * gmap string node :=
  (Some (Foreign "<class 'git.exc.GitCommandError'>"), s, fs).

(** The transform process dies. *)
Definition thumb_raises (fs : gmap string node) (src dst geometry : string)
  : (exn + ThumbData) * gmap string node :=
  (inl (Foreign "<type 'exceptions.OSError'>"), fs).

(** The transform succeeds and leaves its output at [dst]. *)
Definition thumb_ok (fs : gmap string node) (src dst geometry : string)
  : (exn + ThumbData) * gmap string node :=
  (inr {| analysis_std_out := "TIFF 100x100"; analysis_std_err := "";
          convert := "convert " +:+ src +:+ " -resize " +:+ geometry +:+ " " +:+ dst;
          status_code := 0; td_exists := true; td_islink := false; td_size := 5;
          std_err := ""; dest := Py.VStr dst |},
   <[dst := File "thumb"]> fs).

Definition log : AddFileLogger := {| logpath := "/var/log/ddr/addfile/ddr-test-1/ddr-test-1-1.log" |}.

Definition empty_store : Store := {| staged := []; modified := []; history := [] |}.

Definition world (fs : gmap string node) (s : Store) : World :=
  {| fs := fs; store := s; file_objects := []; trace := [] |}.

(** *** Regenerating the access file of an existing [File]

    The scratch directory already holds, under the name the metadata file
    will take, a link to where the new access file is about to be made. *)

Definition ddrfile : FileObj :=
  <["id" := Py.VStr "ddr-test-1-1-master-abc"]>
    (with_access
       (file_of "/media/ddr/ddr-test-1/files/ddr-test-1-1/files/ddr-test-1-1-master-abc.tif"
                {| id := "ddr-test-1-1-master-abc"; collection_id := "ddr-test-1";
                   parent_id := "ddr-test-1-1"; basepath := "/media/ddr" |})
       "/x/ddr-test-1-1-master-abc-a.jpg" entity).

Definition scratch : string := "/media/tmp/file-add/ddr-test-1/ddr-test-1-1".

Definition fs_access : gmap string node :=
  list_to_map
    [("/incoming/scan.tif", File "pixels");
     ("/var/log/ddr/addfile/ddr-test-1", Dir);
     (scratch +:+ "/ddr-test-1-1-master-abc.json",
      Symlink (scratch +:+ "/ddr-test-1-1-master-abc.tif-a.jpg"))].

Definition access_run :=
  add_access (collab thumb_ok) entity ddrfile "/incoming/scan.tif"
             "gjost" "gjost@densho.org" "" None true (world fs_access empty_store).

(** *** Staging without git-annex *)

Definition staging_collab : Collab := collab_with thumb_raises stage annex_missing.

Definition staging_batch : list (string * string) :=
  [("/media/tmp/a.json", "/media/ddr/a.json"); ("/media/tmp/a.tif", "/media/ddr/a.tif")].

Definition staging_world : World :=
  world (list_to_map [("/media/ddr/a.json", File "{file}");
                      ("/media/ddr/a.tif", File "pixels")]) empty_store.

Definition staging_run : outcome string * World :=
  stage_files staging_collab entity [Py.VStr "a.json"] [Py.VStr "a.tif"]
              (as_pairs staging_batch) log true staging_world.

End Demo.

(** * Properties *)

(** ** Strings *)

Lemma append_cons (x : ascii) (a b : string) : String x a +:+ b = String x (a +:+ b).
Proof. reflexivity. Qed.

Lemma append_assoc (a b c : string) : (a +:+ b) +:+ c = a +:+ (b +:+ c).
Proof.
  induction a as [|x a IH]; [reflexivity|].
  rewrite !append_cons. now rewrite IH.
Qed.

Lemma append_nil_r (a : string) : a +:+ "" = a.
Proof.
  induction a as [|x a IH]; [reflexivity|].
  rewrite append_cons. now rewrite IH.
Qed.

Lemma chars_append (a b : string) :
  OsPath.chars (a +:+ b) = OsPath.chars a ++ OsPath.chars b.
Proof.
  induction a as [|x a IH]; [reflexivity|].
  rewrite append_cons. cbn. now rewrite <- IH.
Qed.

Lemma ends_with_slash_append (a b : string) :
  b <> "" -> OsPath.ends_with_slash (a +:+ b) = OsPath.ends_with_slash b.
Proof.
  intros Hb. unfold OsPath.ends_with_slash.
  rewrite chars_append, rev_app_distr.
  destruct b as [|x b]; [congruence|].
  simpl. destruct (rev (OsPath.chars b)); reflexivity.
Qed.

Lemma join2_plain (a b : string) :
  a <> "" -> OsPath.ends_with_slash a = false -> OsPath.starts_with_slash b = false ->
  OsPath.join2 a b = a +:+ "/" +:+ b.
Proof.
  intros Ha Hs Hb. unfold OsPath.join2. rewrite Hb, Hs.
  destruct a; [congruence | reflexivity].
Qed.

(** ** The journal *)

Lemma journal_snoc (p : string) (t : list event) (e : event) :
  journal p (t ++ [e]) = journal p t +:+ appended p e.
Proof.
  unfold journal. induction t as [|x t IH].
  - simpl. now rewrite append_nil_r.
  - change (appended p x +:+ foldr (fun e0 acc => appended p e0 +:+ acc) "" (t ++ [e])
            = (appended p x +:+ foldr (fun e0 acc => appended p e0 +:+ acc) "" t)
              +:+ appended p e).
    rewrite IH. symmetry. apply append_assoc.
Qed.

Lemma entry_run (E : Collab) (log : AddFileLogger) (status msg : string) (w : World) :
  entry E log status msg w
  = (Ret tt, record (EvLog (logpath log) (now E (length (trace w))) status msg) w).
Proof. reflexivity. Qed.

Lemma starts_with_slash_append (a b : string) :
  OsPath.starts_with_slash a = false -> OsPath.starts_with_slash b = false ->
  OsPath.starts_with_slash (a +:+ b) = false.
Proof. destruct a; [intros _ H; exact H | intros H _; exact H]. Qed.

Lemma append_not_nil (a b : string) : a <> "" -> a +:+ b <> "".
Proof. destruct a; [congruence | discriminate]. Qed.

(** The journal line as the specification words it. *)
Definition spec_entry_line (ts : string) (failed : bool) (msg : string) : string :=
  "[" +:+ ts +:+ "] " +:+ (if failed then "not-ok" else "ok") +:+ " - " +:+ msg +:+ newline.

Lemma append_nil_l (a : string) : "" +:+ a = a.
Proof. reflexivity. Qed.

Lemma string_cons_inj (a b : ascii) (s t : string) :
  String a s = String b t -> a = b /\ s = t.
Proof. intros H. now injection H. Qed.

(** Compare a literal with a pattern that has one unknown prefix. *)
Ltac peel_string H :=
  repeat (rewrite ?append_cons, ?append_nil_l in H;
          first [ discriminate H
                | apply string_cons_inj in H; destruct H as [? H]; subst
                | match type of H with
                  | _ = ?s +:+ _ => is_var s; destruct s
                  end ]).

(** C8, as stated, fails: the entry [not_ok] appends is no line of the
    specified form, whatever timestamp and message one reads into it; its
    status token is "not ok". *)
Lemma not_ok_token_counterexample :
  let E := Demo.collab Demo.thumb_raises in
  let w := (not_ok E Demo.log "FAIL" (Demo.world ∅ Demo.empty_store)).2 in
  journal (logpath Demo.log) (calls w) = "[2016-03-01T12:00:0] not ok - FAIL" +:+ newline
  /\ forall ts failed msg,
       journal (logpath Demo.log) (calls w) <> spec_entry_line ts failed msg.
Proof.
  intros E w.
  assert (Hj : journal (logpath Demo.log) (calls w)
               = "[2016-03-01T12:00:0] not ok - FAIL" +:+ newline)
    by (vm_compute; reflexivity).
  split; [exact Hj|].
  intros ts failed msg H. rewrite Hj in H. clear Hj.
  unfold spec_entry_line, newline in H.
  destruct failed; peel_string H.
Qed.

Lemma log_path_shape (i : Identifier) (base : string) :
  base <> "" -> OsPath.ends_with_slash base = false ->
  collection_id i <> "" ->
  OsPath.starts_with_slash (collection_id i) = false ->
  OsPath.ends_with_slash (collection_id i) = false ->
  OsPath.starts_with_slash (id i) = false ->
  _log_path i base
  = base +:+ "/addfile/" +:+ collection_id i +:+ "/" +:+ id i +:+ ".log".
Proof.
  intros Hb Hbs Hc Hcs Hce Hi.
  unfold _log_path, OsPath.join. cbn [fold_left].
  rewrite (join2_plain base "addfile") by (assumption || reflexivity).
  rewrite (join2_plain _ (collection_id i)); cycle 1.
  - now apply append_not_nil.
  - now rewrite ends_with_slash_append.
  - assumption.
  - rewrite join2_plain.
    + now rewrite !append_assoc.
    + now apply append_not_nil, append_not_nil.
    + rewrite !ends_with_slash_append; try assumption; try discriminate.
    + now apply starts_with_slash_append.
Qed.

(** C8 (amended).  Every entry the logger writes appends exactly one line
    [[<timestamp>] <status> - <message>\n] to its journal, where the status
    token is "ok" for [ok] and "not ok" (with a space) for [not_ok]; and a
    logger made from an identifier writes to
    [<logRoot>/addfile/<collectionId>/<aggregateId>.log], for a non-empty
    log root without a trailing separator and identifier parts that are
    not absolute and leave no trailing separator. *)
Theorem audit_entry_format_and_location
  (E : Collab) (log : AddFileLogger) (msg : string) (w : World)
  (i : Identifier) (base : string)
  (Hbase : base <> "") (Hbase_slash : OsPath.ends_with_slash base = false)
  (Hcid : collection_id i <> "")
  (Hcid_abs : OsPath.starts_with_slash (collection_id i) = false)
  (Hcid_slash : OsPath.ends_with_slash (collection_id i) = false)
  (Hid_abs : OsPath.starts_with_slash (id i) = false) :
  let ts := now E (length (trace w)) in
  (ok E log msg w).1 = Ret tt
  /\ journal (logpath log) (calls (ok E log msg w).2)
     = journal (logpath log) (calls w) +:+ ("[" +:+ ts +:+ "] ok - " +:+ msg +:+ newline)
  /\ (not_ok E log msg w).1 = Ret tt
  /\ journal (logpath log) (calls (not_ok E log msg w).2)
     = journal (logpath log) (calls w) +:+ ("[" +:+ ts +:+ "] not ok - " +:+ msg +:+ newline)
  /\ (forall p, p <> logpath log ->
        journal p (calls (ok E log msg w).2) = journal p (calls w)
        /\ journal p (calls (not_ok E log msg w).2) = journal p (calls w))
  /\ (forall log_path w0 l w1,
        addfile_logger (Some i) log_path base w0 = (Ret l, w1) ->
        logpath l = base +:+ "/addfile/" +:+ collection_id i +:+ "/" +:+ id i +:+ ".log").
Proof.
  intros ts. unfold ok, not_ok. rewrite !entry_run. unfold calls. cbn [fst snd trace record rev].
  rewrite !journal_snoc. cbn [appended].
  rewrite bool_decide_eq_true_2 by reflexivity.
  split; [reflexivity|]. split; [reflexivity|].
  split; [reflexivity|]. split; [reflexivity|].
  split; [intros p Hp; split|].
  - rewrite journal_snoc. cbn [appended].
    rewrite bool_decide_eq_false_2 by congruence. apply append_nil_r.
  - rewrite journal_snoc. cbn [appended].
    rewrite bool_decide_eq_false_2 by congruence. apply append_nil_r.
  - intros log_path w0 l w1 H.
    rewrite <- (log_path_shape i base) by assumption.
    unfold addfile_logger in H.
    assert (Hrun : forall lg, (b <- os_path_exists (OsPath.dirname (logpath lg)) ;;
                   (if negb b then os_makedirs (OsPath.dirname (logpath lg)) else ret tt) ;;
                   ret lg)%py w0 = (Ret l, w1) -> l = lg).
    { intros lg. unfold bind, os_path_exists, os_makedirs, emit, modify, get, ret, raise.
      cbn. repeat (match goal with |- context [if ?c then _ else _] => destruct c end; cbn);
        congruence. }
    destruct log_path as [[|c s]|]; apply Hrun in H; now subst l.
Qed.

Lemma audit_entry_format_and_location_witness :
  let E := Demo.collab Demo.thumb_raises in
  let w := Demo.world ∅ Demo.empty_store in
  journal (logpath Demo.log) (calls (not_ok E Demo.log "FAIL" w).2)
  = "[2016-03-01T12:00:0] not ok - FAIL" +:+ newline
  /\ (forall w0 l w1,
        addfile_logger (Some Demo.ident) None "/var/log/ddr" w0 = (Ret l, w1) ->
        logpath l = "/var/log/ddr/addfile/ddr-test-1/ddr-test-1-1.log").
Proof.
  intros E w.
  destruct (audit_entry_format_and_location E Demo.log "FAIL" w Demo.ident "/var/log/ddr")
    as (_ & _ & _ & Hnot & _ & Hpath);
    [discriminate | reflexivity | discriminate | reflexivity | reflexivity | reflexivity |].
  split.
  - rewrite Hnot. vm_compute. reflexivity.
  - intros w0 l w1 H. rewrite (Hpath None w0 l w1 H). reflexivity.
Defined.

(** ** Running the monad *)

Lemma calls_record (e : event) (w : World) : calls (record e w) = calls w ++ [e].
Proof. reflexivity. Qed.

Ltac run_prims :=
  unfold crash, ok, not_ok, entry, util_file_hash, dvcs_list_staged, dvcs_list_modified,
    bind, emit, modify, get, ret, raise;
  cbn [fst snd fs store file_objects trace record with_fs with_store with_file_objects
       length].

Ltac in_order :=
  unfold calls; cbn [trace record with_fs with_store with_file_objects rev];
  rewrite <- ?app_assoc; cbn [app].

(** What [checksums] does, in full. *)
Lemma checksums_run (E : Collab) (src_path : string) (log : AddFileLogger) (w : World) :
  let md5 := Py.of_opt (file_hash E (fs w) src_path "md5") in
  let sha1 := Py.of_opt (file_hash E (fs w) src_path "sha1") in
  let sha256 := Py.of_opt (file_hash E (fs w) src_path "sha256") in
  let r := checksums E src_path log w in
  fs r.2 = fs w /\ store r.2 = store w /\ file_objects r.2 = file_objects w
  /\ exists ts1 ts2 ts3,
       let computed :=
         [EvFileHash src_path "md5"; EvLog (logpath log) ts1 "ok" ("| md5: " +:+ Py.str md5);
          EvFileHash src_path "sha1"; EvLog (logpath log) ts2 "ok" ("| sha1: " +:+ Py.str sha1);
          EvFileHash src_path "sha256";
          EvLog (logpath log) ts3 "ok" ("| sha256: " +:+ Py.str sha256)] in
       if Py.truthy sha1 && Py.truthy md5 && Py.truthy sha256
       then r.1 = Ret (md5, sha1, sha256) /\ calls r.2 = calls w ++ computed
       else exists ts4,
              r.1 = Raise (Exception "Could not calculate checksums")
              /\ calls r.2 = calls w ++ computed
                   ++ [EvLog (logpath log) ts4 "not ok" "Could not calculate checksums"].
Proof.
  intros md5 sha1 sha256 r. subst r. unfold checksums. run_prims.
  fold md5 sha1 sha256.
  destruct (Py.truthy sha1 && Py.truthy md5 && Py.truthy sha256) eqn:Hd;
    cbn [negb fst snd fs store file_objects trace record];
    repeat split; try reflexivity; do 3 eexists.
  - split; [reflexivity|]. in_order. reflexivity.
  - eexists. split; [reflexivity|]. in_order. reflexivity.
Qed.

(** ** The commit gate *)

(** A call that changes the store's history or index, or the changelog. *)
Definition commits (e : event) : bool :=
  match e with
  | EvCommit _ _ | EvStage _ | EvAnnexStage _ | EvWriteChangelog _ => true
  | _ => false
  end.

(** The refusal of [add_file_commit], for what the store reports. *)
Definition gate_error (s : Store) : exn :=
  Exception ("Could not commit bc " +:+ Py.str_nat (length (modified s))
             +:+ " unstaged files: " +:+ Py.str_list (modified s)).

(** The gate shut: either test of [if staged and not modified] failing
    leads to the [else] branch, which only writes to the journal. *)
Lemma add_file_commit_refuses (E : Collab) (entity : Entity) (file_ : FileObj)
      (repo : string) (log : AddFileLogger) (git_name git_mail agent : string) (w : World) :
  staged (store w) = [] \/ modified (store w) <> [] ->
  let r := add_file_commit E entity file_ repo log git_name git_mail agent w in
  r.1 = Raise (gate_error (store w))
  /\ store r.2 = store w /\ fs r.2 = fs w /\ file_objects r.2 = file_objects w
  /\ exists evs, calls r.2 = calls w ++ evs
                 /\ Forall (fun e => commits e = false) evs
                 /\ exists ts, last evs = Some (EvLog (logpath log) ts "not ok" "Can not commit!").
Proof.
  intros H r. subst r. unfold add_file_commit. run_prims.
  assert (Hg : negb (bool_decide (staged (store w) = []))
               && bool_decide (modified (store w) = []) = false).
  { destruct H as [H|H].
    - now rewrite bool_decide_eq_true_2.
    - rewrite (bool_decide_eq_false_2 _ H). apply andb_false_r. }
  rewrite Hg. cbn [fst snd fs store file_objects trace record].
  repeat split; try reflexivity.
  eexists. split; [in_order; reflexivity|].
  split; [repeat constructor|]. eexists. reflexivity.
Qed.

(** C5.  Whenever the store reports a path as modified and not staged,
    [add_file_commit] raises an error that lists the modified paths, and
    neither commits nor stages anything, whatever is staged: the store and
    its history, and the files, are as they were. *)
Theorem commit_gate_strictness (E : Collab) (entity : Entity) (file_ : FileObj)
        (repo : string) (log : AddFileLogger) (git_name git_mail agent : string)
        (w : World) (Hmodified : modified (store w) <> []) :
  let r := add_file_commit E entity file_ repo log git_name git_mail agent w in
  r.1 = Raise (Exception ("Could not commit bc "
                          +:+ Py.str_nat (length (modified (store w)))
                          +:+ " unstaged files: " +:+ Py.str_list (modified (store w))))
  /\ history (store r.2) = history (store w)
  /\ store r.2 = store w
  /\ fs r.2 = fs w
  /\ exists evs, calls r.2 = calls w ++ evs
                 /\ Forall (fun e => forall msg agent', e <> EvCommit msg agent') evs
                 /\ Forall (fun e => commits e = false) evs.
Proof.
  intros r.
  destruct (add_file_commit_refuses E entity file_ repo log git_name git_mail agent w
              (or_intror Hmodified)) as (Hr & Hs & Hf & _ & evs & Hc & Hq & _).
  fold r in Hr, Hs, Hf, Hc.
  repeat split; try assumption.
  - now rewrite Hs.
  - exists evs. repeat split; try assumption.
    eapply Forall_impl; [exact Hq|]. intros e He msg a ->. discriminate.
Qed.

Lemma commit_gate_strictness_witness :
  let E := Demo.collab Demo.thumb_raises in
  let w := Demo.world ∅ {| staged := ["files/a.json"]; modified := ["files/b.json"];
                           history := [] |} in
  (add_file_commit E Demo.entity (Demo.file_of "/x" Demo.ident) "/media/ddr/ddr-test-1"
                   Demo.log "gjost" "gjost@densho.org" "cmdln" w).1
  = Raise (Exception "Could not commit bc 1 unstaged files: ['files/b.json']").
Proof.
  intros E w.
  destruct (commit_gate_strictness E Demo.entity (Demo.file_of "/x" Demo.ident)
              "/media/ddr/ddr-test-1" Demo.log "gjost" "gjost@densho.org" "cmdln" w)
    as (H & _); [discriminate|].
  rewrite H. vm_compute. reflexivity.
Defined.

(** C10.  [add_file_commit] gets as far as a commit only when something is
    staged and nothing is modified; with nothing staged it refuses even
    when nothing is modified: it raises, and commits and stages nothing. *)
Theorem commit_gate_needs_staged (E : Collab) (entity : Entity) (file_ : FileObj)
        (repo : string) (log : AddFileLogger) (git_name git_mail agent : string)
        (w : World) :
  let r := add_file_commit E entity file_ repo log git_name git_mail agent w in
  (forall evs e, calls r.2 = calls w ++ evs -> In e evs -> commits e = true ->
                 staged (store w) <> [] /\ modified (store w) = [])
  /\ ((exists a, r.1 = Ret a) -> staged (store w) <> [] /\ modified (store w) = [])
  /\ (staged (store w) = [] -> modified (store w) = [] ->
      r.1 = Raise (Exception "Could not commit bc 0 unstaged files: []")
      /\ store r.2 = store w
      /\ exists evs, calls r.2 = calls w ++ evs /\ Forall (fun e => commits e = false) evs).
Proof.
  intros r.
  assert (Hgate : (staged (store w) <> [] /\ modified (store w) = [])
                  \/ (staged (store w) = [] \/ modified (store w) <> [])).
  { destruct (staged (store w)), (modified (store w)); intuition congruence. }
  split; [|split].
  - intros evs e Hc Hin He.
    destruct Hgate as [Hopen|Hshut]; [exact Hopen|exfalso].
    destruct (add_file_commit_refuses E entity file_ repo log git_name git_mail agent w Hshut)
      as (_ & _ & _ & _ & evs' & Hc' & Hq & _).
    fold r in Hc'. rewrite Hc in Hc'. apply app_inv_head in Hc'. subst evs'.
    rewrite Forall_forall in Hq. specialize (Hq e).
    rewrite Hq in He; [discriminate|]. now apply list_elem_of_In.
  - intros [a Ha].
    destruct Hgate as [Hopen|Hshut]; [exact Hopen|exfalso].
    destruct (add_file_commit_refuses E entity file_ repo log git_name git_mail agent w Hshut)
      as (Hr & _).
    fold r in Hr. congruence.
  - intros Hs Hm.
    destruct (add_file_commit_refuses E entity file_ repo log git_name git_mail agent w
                (or_introl Hs)) as (Hr & Hst & _ & _ & evs & Hc & Hq & _).
    fold r in Hr, Hst, Hc. split; [|split; [exact Hst|eauto]].
    rewrite Hr. unfold gate_error. now rewrite Hm.
Qed.

(** ** The restore path of [add_access] *)

Lemma move_existing_files_back_run (E : Collab) (files : arg) (log : AddFileLogger)
      (w : World) :
  move_existing_files_back E files log w = (Raise (NameError "tmp_entity_json"), w).
Proof. reflexivity. Qed.

(** C9, as stated, fails: where [add_access] takes its restore path (the
    moved metadata file does not exist at its destination), the call it
    makes passes three arguments to a function of two parameters: the
    interpreter raises [TypeError] and the body, with its undefined names,
    never runs. The metadata file stays where the failed move left it. *)
Lemma restore_call_counterexample :
  Demo.access_run.1
  = Raise (TypeError "move_existing_files_back() takes exactly 2 arguments (3 given)")
  /\ (forall name, Demo.access_run.1 <> Raise (NameError name))
  /\ (exists ts, last (calls Demo.access_run.2)
                 = Some (EvLog (logpath Demo.log) ts "not ok"
                               "Failed to update metadata in destination repo"))
  /\ fs Demo.access_run.2
       !! "/media/ddr/ddr-test-1/files/ddr-test-1-1/files/ddr-test-1-1-master-abc.json"
     = Some (Symlink (Demo.scratch +:+ "/ddr-test-1-1-master-abc.tif-a.jpg"))
  /\ fs Demo.access_run.2 !! (Demo.scratch +:+ "/ddr-test-1-1-master-abc.json") = None.
Proof.
  assert (H : Demo.access_run.1
              = Raise (TypeError
                         "move_existing_files_back() takes exactly 2 arguments (3 given)"))
    by (vm_compute; reflexivity).
  split; [exact H|].
  split; [intros name; rewrite H; discriminate|].
  split; [eexists; vm_compute; reflexivity|].
  split; vm_compute; reflexivity.
Qed.

(** C9 (amended).  Every invocation of [move_existing_files_back] raises
    before it performs any move, and leaves the world as it was: one that
    binds the two parameters raises [NameError] for [tmp_entity_json], which
    is not defined in its scope; one with three arguments, as [add_access]
    makes it, raises [TypeError] before the body runs.  So the restore path
    of [add_access] never moves the file back. *)
Theorem move_existing_files_back_never_moves (E : Collab) :
  (forall files log w,
      move_existing_files_back E files log w = (Raise (NameError "tmp_entity_json"), w))
  /\ (forall files log w,
       call_move_existing_files_back E [files; ArgLog log] w
       = (Raise (NameError "tmp_entity_json"), w))
  /\ (forall existing_files mvold_fails log w,
       call_move_existing_files_back E [existing_files; mvold_fails; log] w
       = (Raise (TypeError "move_existing_files_back() takes exactly 2 arguments (3 given)"),
          w))
  /\ (forall args w, exists e, call_move_existing_files_back E args w = (Raise e, w)).
Proof.
  split; [intros; apply move_existing_files_back_run|].
  split; [intros; apply move_existing_files_back_run|].
  split; [intros a b c w; destruct b; reflexivity|].
  intros args w. unfold call_move_existing_files_back.
  destruct args as [|a [|b [|c args]]];
    try destruct b; eexists;
    first [apply move_existing_files_back_run | reflexivity].
Qed.

(** ** Staging *)





Lemma for_each_entry_run (E : Collab) (log : AddFileLogger) (st : string)
      {A} (f : A -> string) (l : list A) (w : World) :
  exists w', for_each l (fun x => entry E log st (f x)) w = (Ret tt, w')
             /\ fs w' = fs w /\ store w' = store w /\ file_objects w' = file_objects w
             /\ exists evs, calls w' = calls w ++ evs
                            /\ Forall (fun e => exists ts m, e = EvLog (logpath log) ts st m) evs.
Proof.
  revert w. induction l as [|x l IH]; intros w.
  - exists w. repeat split; try reflexivity. exists []. now rewrite app_nil_r.
  - cbn [for_each]. unfold bind at 1. rewrite entry_run.
    destruct (IH (record (EvLog (logpath log) (now E (length (trace w))) st (f x)) w))
      as (w' & Hrun & Hfs & Hst & Hfo & evs & Hc & Hq).
    exists w'. rewrite Hrun. repeat split; try assumption.
    eexists (_ :: evs). split.
    + rewrite Hc, calls_record, <- app_assoc. reflexivity.
    + constructor; [eauto | assumption].
Qed.

Lemma follow_absent (n : nat) (fs : gmap string node) (p : string) :
  fs !! p = None -> Fs.follow n fs p = Some p.
Proof. intros H. destruct n; cbn; now rewrite H. Qed.

Lemma isdir_absent (fs : gmap string node) (p : string) :
  fs !! p = None -> Fs.isdir fs p = false.
Proof. intros H. unfold Fs.isdir, Fs.stat. now rewrite follow_absent, H. Qed.












(** ** Inverting runs *)

Lemma bind_ret_inv {A B} (m : M A) (k : A -> M B) (w : World) (b : B) (w' : World) :
  bind m k w = (Ret b, w') ->
  exists a w1, m w = (Ret a, w1) /\ k a w1 = (Ret b, w').
Proof.
  unfold bind. destruct (m w) as [[a|e] w1]; [eauto | discriminate].
Qed.

Lemma bind_run {A B} (m : M A) (k : A -> M B) (w : World) (a : A) (w1 : World) :
  m w = (Ret a, w1) -> bind m k w = k a w1.
Proof. unfold bind. now intros ->. Qed.

(** ** Relocation *)


Lemma shutil_move_calls (s d : string) (w : World) :
  calls (shutil_move s d w).2 = calls w ++ [EvMove s d].
Proof.
  unfold shutil_move. run_prims.
  repeat match goal with
         | |- context [if ?c then _ else _] => destruct c
         | |- context [match ?x with Some _ => _ | None => _ end] => destruct x
         end; reflexivity.
Qed.

Lemma move_v_ret_inv (tmp dest : Py.val) (w w' : World) :
  move_v tmp dest w = (Ret tt, w') ->
  exists s d, tmp = Py.VStr s /\ dest = Py.VStr d /\ calls w' = calls w ++ [EvMove s d].
Proof.
  unfold move_v, path_arg. intros H.
  destruct tmp as [| | |s|]; try discriminate H.
  destruct dest as [| | |d|]; try discriminate H.
  exists s, d. repeat split.
  change (shutil_move s d w = (Ret tt, w')) in H.
  rewrite <- (shutil_move_calls s d w). now rewrite H.
Qed.






(** ** Relocating a batch and taking it back *)













(** ** What a run may do

    [keeps R m]: whatever the state [m] starts in, and however it ends
    (by returning or by raising), the final state is related to the first
    by [R].  For a reflexive and transitive [R] this follows the structure
    of the code. *)

Definition keeps {A} (R : relation World) (m : M A) : Prop :=
  forall w, R w (m w).2.

Section Keeps.

Context (R : relation World) {HR : PreOrder R}.

Lemma keeps_ret {A} (a : A) : keeps R (ret a).
Proof using HR. intros w. reflexivity. Qed.

Lemma keeps_raise {A} (e : exn) : keeps R (@raise A e).
Proof using HR. intros w. reflexivity. Qed.

Lemma keeps_get : keeps R get.
Proof using HR. intros w. reflexivity. Qed.

Lemma keeps_bind {A B} (m : M A) (k : A -> M B) :
  keeps R m -> (forall a, keeps R (k a)) -> keeps R (bind m k).
Proof using HR.
  intros Hm Hk w. unfold bind. specialize (Hm w).
  destruct (m w) as [[a|e] w1]; [|exact Hm].
  etransitivity; [exact Hm | exact (Hk a w1)].
Qed.

Lemma keeps_bind_ret {A B} (a : A) (k : A -> M B) :
  keeps R (k a) -> keeps R (bind (ret a) k).
Proof using Type. intros H. exact H. Qed.

Lemma keeps_bind_raise {A B} (e : exn) (k : A -> M B) : keeps R (bind (raise e) k).
Proof using HR. intros w. reflexivity. Qed.

Lemma keeps_try_except {A} (m : M A) (h : exn -> M A) :
  keeps R m -> (forall e, keeps R (h e)) -> keeps R (try_except m h).
Proof using HR.
  intros Hm Hh w. unfold try_except. specialize (Hm w).
  destruct (m w) as [[a|e] w1]; [exact Hm|].
  etransitivity; [exact Hm | exact (Hh e w1)].
Qed.

Lemma keeps_try_finally {A} (m : M A) (f : option A -> M unit) :
  keeps R m -> (forall r, keeps R (f r)) -> keeps R (try_finally m f).
Proof using HR.
  intros Hm Hf w. unfold try_finally. specialize (Hm w).
  destruct (m w) as [[a|e] w1].
  - specialize (Hf (Some a) w1). destruct (f (Some a) w1) as [[[]|e'] w2];
      (etransitivity; [exact Hm | exact Hf]).
  - specialize (Hf None w1). destruct (f None w1) as [[[]|e'] w2];
      (etransitivity; [exact Hm | exact Hf]).
Qed.

Lemma keeps_for_each {A} (l : list A) (body : A -> M unit) :
  (forall x, keeps R (body x)) -> keeps R (for_each l body).
Proof using HR.
  intros Hb. induction l as [|x l IH]; cbn [for_each].
  - apply keeps_ret.
  - apply keeps_bind; [apply Hb | intros _; exact IH].
Qed.

End Keeps.

(** The calls made are all of the kind [P]. *)
Definition only (P : event -> Prop) : relation World :=
  fun w w' => exists evs, calls w' = calls w ++ evs /\ Forall P evs.

#[export] Instance only_preorder (P : event -> Prop) : PreOrder (only P).
Proof.
  split.
  - intros w. exists []. now rewrite app_nil_r.
  - intros w1 w2 w3 (e1 & H1 & F1) (e2 & H2 & F2). exists (e1 ++ e2).
    split; [now rewrite H2, H1, app_assoc | now apply Forall_app].
Qed.

Lemma only_emit (P : event -> Prop) (e : event) : P e -> keeps (only P) (emit e).
Proof. intros He w. exists [e]. split; [reflexivity | now constructor]. Qed.

Lemma only_modify (P : event -> Prop) (f : World -> World) :
  (forall w, trace (f w) = trace w) -> keeps (only P) (modify f).
Proof.
  intros Hf w. exists []. unfold modify, calls. cbn [snd]. now rewrite Hf, app_nil_r.
Qed.

Lemma only_weaken {A} (P Q : event -> Prop) (m : M A) :
  (forall e, P e -> Q e) -> keeps (only P) m -> keeps (only Q) m.
Proof.
  intros HPQ Hm w. destruct (Hm w) as (evs & Hc & HF).
  exists evs. split; [exact Hc|]. eapply Forall_impl; eauto.
Qed.

(** Following the code down to its primitive steps. [known] closes the
    calls that have a lemma of their own, [prim] the steps that touch the
    state. *)
Ltac keeps_step known prim :=
  first
    [ known
    | match goal with
      | |- keeps _ (ret _) => apply keeps_ret; tc_solve
      | |- keeps _ (raise _) => apply keeps_raise; tc_solve
      | |- keeps _ get => apply keeps_get; tc_solve
      | |- keeps _ (emit _) => prim
      | |- keeps _ (modify _) => prim
      | |- keeps _ (bind (ret _) _) => apply keeps_bind_ret; cbv beta
      | |- keeps _ (bind (raise _) _) => apply keeps_bind_raise; tc_solve
      | |- keeps _ (bind _ _) => apply keeps_bind; [tc_solve| |intros ?]
      | |- keeps _ (try_except _ _) => apply keeps_try_except; [tc_solve| |intros ?]
      | |- keeps _ (try_finally _ _) => apply keeps_try_finally; [tc_solve| |intros ?]
      | |- keeps _ (for_each _ _) => apply keeps_for_each; [tc_solve|intros ?]
      | |- keeps _ (if ?b then _ else _) => destruct b
      | |- keeps _ (match ?x with _ => _ end) => destruct x
      | |- keeps _ (let _ := _ in _) => cbv zeta
      end
    | progress unfold
        os_path_exists, os_path_islink, os_access_, os_makedirs, os_path_getsize,
        os_chmod, open_for_write, shutil_copy, shutil_move, fileio_write_text,
        entry, ok, not_ok, crash, addfile_logger, path_arg, str_method, getattr,
        exists_v, islink_v, move_v, check_dir, util_file_hash, checksums,
        copy_to_workdir, imaging_thumbnail, make_access_file, write_object_metadata,
        move_new_files_back, load_global, getattr_v, move_existing_files_back,
        call_move_existing_files_back, dvcs_repository, dvcs_list_staged,
        dvcs_list_modified, run_store, dvcs_stage_, dvcs_annex_stage_, dvcs_commit_,
        dvcs_list_committed, changelog_write_changelog_entry, imaging_extract_xmp,
        file_objects_append, entity_write_json, stage_files, open_log,
        truthy_and_exists, os_path_realpath ].

Ltac follow known prim := repeat keeps_step known prim.

Ltac only_prim side :=
  first [ apply only_emit; side
        | apply only_modify; intros ?; reflexivity ].

Ltac only_follow known side := follow known ltac:(only_prim side).

(** A step whose value matters to what follows. *)
Ltac by_value :=
  match goal with
  | |- keeps _ (bind (path_arg ?v) _) => destruct v; cbn [path_arg]
  | |- keeps _ (bind (match ?v with _ => _ end) _) => destruct v
  end.

(** Every rename [move_files] asks for is that of a pair of its batch,
    from scratch to destination. *)
Definition forward (files : list (Py.val * Py.val)) (e : event) : Prop :=
  match e with
  | EvMove s d => In (Py.VStr s, Py.VStr d) files
  | _ => True
  end.

Lemma forward_cons (p : Py.val * Py.val) (files : list (Py.val * Py.val)) (e : event) :
  forward files e -> forward (p :: files) e.
Proof. destruct e; cbn; auto. Qed.

Lemma move_files_forward (E : Collab) (log : AddFileLogger) (files : list (Py.val * Py.val)) :
  keeps (only (forward files)) (move_files E files log).
Proof.
  induction files as [|[tmp dest] files IH]; cbn [move_files].
  - only_follow fail ltac:(exact I).
  - only_follow ltac:(first [apply (only_weaken _ _ _ (forward_cons _ files) IH)
                             | by_value])
                       ltac:(first [exact I | now left]).
Qed.

Lemma move_new_files_back_forward
  (E : Collab) (log : AddFileLogger) (files : list (Py.val * Py.val))
  (failures : list Py.val) :
  keeps (only (forward files)) (move_new_files_back E files failures log).
Proof.
  unfold move_new_files_back.
  only_follow ltac:(apply move_files_forward) ltac:(exact I).
Qed.

Lemma bailing_out (E : Collab) (log : AddFileLogger) (fails : list Py.val) (w : World) :
  ((not_ok E log "Failed to place one or more files to destination repo" ;;
    for_each fails (fun fail => not_ok E log ("| " +:+ Py.str fail)) ;;
    @crash E unit log "Bailing out. We are done here." ClsException) w).1
  = Raise (Exception "Bailing out. We are done here.").
Proof.
  unfold not_ok at 1. rewrite (bind_run _ _ _ _ _ (entry_run E log _ _ _)).
  destruct (for_each_entry_run E log "not ok" (fun fail => "| " +:+ Py.str fail) fails
              (record (EvLog (logpath log) (now E (length (trace w))) "not ok"
                         "Failed to place one or more files to destination repo") w))
    as (w' & Hrun & _).
  unfold not_ok at 1. rewrite (bind_run _ _ _ _ _ Hrun).
  reflexivity.
Qed.

Lemma move_new_files_back_raises
  (E : Collab) (log : AddFileLogger) (files : list (Py.val * Py.val))
  (failures : list Py.val) (w : World) :
  (move_new_files_back E files failures log w).1
  = Raise (Exception "Bailing out. We are done here.").
Proof.
  unfold move_new_files_back.
  unfold not_ok at 1. rewrite (bind_run _ _ _ _ _ (entry_run E log _ _ _)).
  unfold not_ok at 1. rewrite (bind_run _ _ _ _ _ (entry_run E log _ _ _)).
  set (w2 := record _ (record _ w)).
  unfold bind at 1, try_finally.
  destruct (try_except _ _ w2) as [[fails|e] w3];
    cbn [default from_option Datatypes.id].
  - pose proof (bailing_out E log fails w3) as H.
    destruct (bind _ _ w3) as [[[]|e'] w4]; cbn [fst] in H |- *; congruence.
  - pose proof (bailing_out E log [] w3) as H.
    destruct (bind _ _ w3) as [[[]|e'] w4]; cbn [fst] in H |- *; congruence.
Qed.

(** X7.  The rollback never reports success and never moves anything back:
    whatever the batch and the state, [move_new_files_back] raises
    [Exception('Bailing out. We are done here.')], which replaces any
    error of the moves themselves, and every rename it has asked for is
    that of a pair of the batch from scratch to destination, the
    direction in which [move_files] has just failed. *)
Theorem move_new_files_back_never_restores
  (E : Collab) (log : AddFileLogger) (files : list (Py.val * Py.val))
  (failures : list Py.val) (w : World) :
  exists w' evs,
    move_new_files_back E files failures log w
    = (Raise (Exception "Bailing out. We are done here."), w')
    /\ calls w' = calls w ++ evs
    /\ forall s d, In (EvMove s d) evs -> In (Py.VStr s, Py.VStr d) files.
Proof.
  destruct (move_new_files_back_forward E log files failures w) as (evs & Hc & HF).
  exists (move_new_files_back E files failures log w).2, evs.
  split; [|split; [exact Hc|]].
  - rewrite (surjective_pairing (move_new_files_back E files failures log w)) at 1.
    f_equal. apply move_new_files_back_raises.
  - intros s d Hin. rewrite Forall_forall in HF.
    apply (HF (EvMove s d)). now apply list_elem_of_In.
Qed.

Lemma shutil_move_missing (s d : string) (w : World) :
  fs w !! s = None ->
  exists e, shutil_move s d w = (Raise e, record (EvMove s d) w).
Proof.
  intros Hs. unfold shutil_move. run_prims.
  destruct (Fs.isdir (fs w) d) eqn:Hdir; cbn [andb].
  - destruct (bool_decide (s = d)) eqn:Hsd.
    + apply bool_decide_eq_true in Hsd. subst d.
      now rewrite (isdir_absent _ _ Hs) in Hdir.
    + destruct (Fs.exists_ (fs w) (OsPath.join2 d (OsPath.basename s))); [now eexists|].
      rewrite Hs. now eexists.
  - rewrite Hs. now eexists.
Qed.

(** X8.  Once the first scratch path of the batch is gone, as it is after
    [move_files] has moved it, [move_new_files_back] leaves the filesystem
    exactly as it found it: the files already moved stay at their
    destinations. *)
Theorem move_new_files_back_changes_nothing
  (E : Collab) (log : AddFileLogger) (t d : string) (rest : list (Py.val * Py.val))
  (failures : list Py.val) (w : World) :
  fs w !! t = None ->
  fs (move_new_files_back E ((Py.VStr t, Py.VStr d) :: rest) failures log w).2 = fs w.
Proof.
  intros Ht. unfold move_new_files_back. cbn [move_files].
  unfold move_v, path_arg, try_finally, try_except. run_prims.
  match goal with
  | |- context [shutil_move t d ?W] =>
      destruct (shutil_move_missing t d W Ht) as [e He]; rewrite He
  end.
  reflexivity.
Qed.

Lemma move_new_files_back_changes_nothing_witness :
  fs (move_new_files_back Demo.staging_collab
        ((Py.VStr "/media/tmp/a.json", Py.VStr "/media/ddr/a.json")
           :: [(Py.VStr "/media/tmp/a.tif", Py.VStr "/media/ddr/a.tif")])
        [Py.VStr "/media/tmp/a.tif"] Demo.log Demo.staging_world).2
  = fs Demo.staging_world.
Proof.
  apply move_new_files_back_changes_nothing. vm_compute. reflexivity.
Defined.

(** ** The access file *)


(** ** Digests *)

(** X10.  [checksums] raises exactly when one of the three digests is falsy
    ([None] or the empty string); the error is the plain [Exception]
    ['Could not calculate checksums'], logged as the last, [not ok], entry.
    Otherwise it returns the digests in the order md5, sha1, sha256.  All
    three digests are computed either way, and neither the filesystem nor
    the store is touched. *)
Theorem checksums_raise_iff_falsy_digest
  (E : Collab) (src_path : string) (log : AddFileLogger) (w : World) :
  let md5 := Py.of_opt (file_hash E (fs w) src_path "md5") in
  let sha1 := Py.of_opt (file_hash E (fs w) src_path "sha1") in
  let sha256 := Py.of_opt (file_hash E (fs w) src_path "sha256") in
  let r := checksums E src_path log w in
  ((exists e, r.1 = Raise e)
   <-> Py.truthy md5 = false \/ Py.truthy sha1 = false \/ Py.truthy sha256 = false)
  /\ (forall v, r.1 = Ret v -> v = (md5, sha1, sha256))
  /\ (forall e, r.1 = Raise e ->
        e = Exception "Could not calculate checksums"
        /\ exists ts, last (calls r.2)
                      = Some (EvLog (logpath log) ts "not ok" "Could not calculate checksums"))
  /\ (exists evs, calls r.2 = calls w ++ evs
                  /\ omap (fun e => match e with EvFileHash p a => Some (p, a) | _ => None end)
                          evs
                     = [(src_path, "md5"); (src_path, "sha1"); (src_path, "sha256")])
  /\ fs r.2 = fs w /\ store r.2 = store w /\ file_objects r.2 = file_objects w.
Proof.
  intros md5 sha1 sha256 r.
  destruct (checksums_run E src_path log w) as (Hfs & Hst & Hfo & ts1 & ts2 & ts3 & H).
  fold md5 sha1 sha256 r in Hfs, Hst, Hfo, H. cbv zeta in H.
  destruct (Py.truthy sha1) eqn:H1, (Py.truthy md5) eqn:H5, (Py.truthy sha256) eqn:H256;
    cbn [andb] in H;
    try (destruct H as (ts4 & Hr & Hc));
    try (destruct H as (Hr & Hc));
    rewrite Hr, Hc;
    (split; [split; [intros [e He]; first [discriminate He | tauto]
                    | intros Hf; first [now eexists | intuition discriminate]]|]);
    (split; [intros v Hv; first [congruence | discriminate Hv]|]);
    (split; [intros e He; first [discriminate He | injection He as <-; split;
               [reflexivity | exists ts4; now rewrite app_assoc, last_snoc]]|]);
    (split; [eexists; split; [reflexivity|reflexivity]|]);
    now repeat split.
Qed.

(** ** Directories *)



(** ** Opening the journal *)



(** ** Writing through links *)

Lemma follow_end (n : nat) (fs : gmap string node) (p q : string) :
  Fs.follow n fs p = Some q -> Fs.islink fs q = false.
Proof.
  revert p. induction n as [|n IH]; intros p; cbn [Fs.follow]; unfold Fs.islink.
  - destruct (fs !! p) as [[| |t]|] eqn:Hp; intros H; try discriminate;
      injection H as <-; now rewrite Hp.
  - destruct (fs !! p) as [[| |t]|] eqn:Hp; intros H;
      [injection H as <-; now rewrite Hp ..| exact (IH t H) | injection H as <-; now rewrite Hp].
Qed.

(** Writing a regular file where a path leads does not change where the
    path leads. *)
Lemma follow_insert_target (n : nat) (fs : gmap string node) (p q text : string) :
  Fs.follow n fs p = Some q -> Fs.follow n (<[q := File text]> fs) p = Some q.
Proof.
  revert p. induction n as [|n IH]; intros p H.
  - pose proof (follow_end 0 fs p q H) as Hq. cbn [Fs.follow] in *.
    destruct (decide (p = q)) as [->|Hpq].
    + now rewrite lookup_insert_eq.
    + rewrite lookup_insert_ne by congruence.
      destruct (fs !! p) as [[| |t]|]; congruence.
  - pose proof (follow_end (S n) fs p q H) as Hq. cbn [Fs.follow] in *.
    destruct (decide (p = q)) as [->|Hpq].
    + now rewrite lookup_insert_eq.
    + rewrite lookup_insert_ne by congruence.
      destruct (fs !! p) as [[| |t]|]; try congruence. now apply IH.
Qed.

Lemma open_for_write_read_back (p text : string) (w : World) :
  let r := open_for_write p text w in
  match r.1 with
  | Ret _ =>
      Fs.stat (fs r.2) p = Some (File text)
      /\ (forall q, Fs.follow 40 (fs w) p <> Some q -> fs r.2 !! q = fs w !! q)
      /\ trace r.2 = trace w /\ store r.2 = store w /\ file_objects r.2 = file_objects w
  | Raise e => e = IOError p /\ r.2 = w
  end.
Proof.
  intros r. subst r. unfold open_for_write. run_prims.
  destruct (Fs.follow 40 (fs w) p) as [q|] eqn:Hq; run_prims; [|now split].
  assert (Hok : Fs.stat (<[q := File text]> (fs w)) p = Some (File text)
                /\ forall q', Some q <> Some q' ->
                              <[q := File text]> (fs w) !! q' = fs w !! q').
  { split.
    - unfold Fs.stat. rewrite (follow_insert_target _ _ _ _ _ Hq).
      now rewrite lookup_insert_eq.
    - intros q' Hne. rewrite lookup_insert_ne; congruence. }
  destruct (fs w !! q) as [[| |t]|]; run_prims;
    first [now split | split; [apply Hok | split; [apply Hok | now repeat split]]].
Qed.

(** ** The metadata file *)

(** X16.  When [write_object_metadata] returns, the path it returns, the
    basename of the object's [json_path] inside the scratch directory,
    leads to a regular file holding the object's JSON, and nothing else
    on disk has changed.  It can raise [AttributeError] (an object without
    a string [json_path]) or [IOError] (the file cannot be opened), and
    then has written nothing; its own check, 'Could not write file
    metadata', never fires. *)
Theorem write_object_metadata_read_back
  (E : Collab) (obj : FileObj) (tmp_dir : string) (log : AddFileLogger) (w : World) :
  let r := write_object_metadata E obj tmp_dir log w in
  match r.1 with
  | Ret tmp_json =>
      (exists jp, obj !! "json_path" = Some (Py.VStr jp)
                  /\ tmp_json = OsPath.join tmp_dir [OsPath.basename jp])
      /\ Fs.stat (fs r.2) tmp_json = Some (File (dump_json E obj))
      /\ (forall q, Fs.follow 40 (fs w) tmp_json <> Some q -> fs r.2 !! q = fs w !! q)
  | Raise e =>
      fs r.2 = fs w
      /\ (e = AttributeError "json_path" \/ e = AttributeError "rfind"
          \/ exists p, e = IOError p)
  end.
Proof.
  intros r. subst r. unfold write_object_metadata, getattr, str_method.
  destruct (obj !! "json_path") as [v|] eqn:Hjp; [|split; [reflexivity | now left]].
  destruct v as [| | |jp|]; try (split; [reflexivity | right; now left]).
  unfold fileio_write_text, os_path_exists. run_prims.
  set (tmp_json := OsPath.join tmp_dir [OsPath.basename jp]).
  match goal with
  | |- context [open_for_write tmp_json ?text ?W] =>
      pose proof (open_for_write_read_back tmp_json text W) as H; cbv zeta in H;
      destruct (open_for_write tmp_json text W) as [[[]|e] w1]
  end; cbn [fst snd fs store file_objects trace record] in H |- *.
  - destruct H as (Hstat & Hframe & _).
    assert (Hex : Fs.exists_ (fs w1) tmp_json = true)
      by (unfold Fs.exists_; now rewrite Hstat).
    rewrite Hex. cbn [negb fst snd]. run_prims.
    split; [now exists jp|]. split; [exact Hstat | exact Hframe].
  - destruct H as [-> ->]. split; [reflexivity|]. right. right. now eexists.
Qed.

(** ** Ingest only stages *)

(** A call that writes history or the changelog. *)
Definition writes_history (e : event) : Prop :=
  match e with
  | EvCommit _ _ | EvWriteChangelog _ | EvListCommitted _ => True
  | _ => False
  end.

(** A call that changes the entity: a child attached, or its metadata
    file rewritten. *)
Definition changes_entity (e : event) : Prop :=
  match e with
  | EvAppendChild _ | EvEntityWriteJson _ => True
  | _ => False
  end.

Ltac by_kind := cbn; tauto.

Lemma move_files_only (P : event -> Prop) (E : Collab) (log : AddFileLogger)
      (files : list (Py.val * Py.val)) :
  (forall p ts st msg, P (EvLog p ts st msg)) ->
  (forall s d, P (EvMove s d)) ->
  (forall p r, P (EvExists p r)) ->
  keeps (only P) (move_files E files log).
Proof.
  intros Hlog Hmove Hex.
  induction files as [|[tmp dest] files IH]; cbn [move_files].
  - only_follow fail fail.
  - only_follow ltac:(exact IH) ltac:(first [apply Hlog | apply Hmove | apply Hex]).
Qed.

Lemma add_local_file_no_history
  (E : Collab) (entity : Entity) (src_path role : string) (data : gmap string Py.val)
  (git_name git_mail agent : string) (log_path : option string) (show_staged : bool) :
  keeps (only (fun e => ~ writes_history e))
        (add_local_file E entity src_path role data git_name git_mail agent
                        log_path show_staged).
Proof.
  unfold add_local_file.
  only_follow ltac:(apply move_files_only; intros; by_kind) ltac:(by_kind).
Qed.

Lemma add_access_no_history
  (E : Collab) (entity : Entity) (ddrfile : FileObj) (src_path : string)
  (git_name git_mail agent : string) (log_path : option string) (show_staged : bool) :
  keeps (only (fun e => ~ writes_history e /\ ~ changes_entity e))
        (add_access E entity ddrfile src_path git_name git_mail agent
                    log_path show_staged).
Proof.
  unfold add_access.
  only_follow ltac:(apply move_files_only; intros; by_kind) ltac:(by_kind).
Qed.

(** X4.  Files are only staged: however a run of [add_local_file] or of
    [add_access] ends, it has made no commit and has not written the
    changelog; and [add_access] has neither attached a child to the entity
    nor rewritten the entity's metadata file. *)
Theorem ingest_only_stages
  (E : Collab) (entity : Entity) (src_path role : string) (data : gmap string Py.val)
  (ddrfile : FileObj) (git_name git_mail agent : string) (log_path : option string)
  (show_staged : bool) (w : World) :
  (exists evs,
     calls (add_local_file E entity src_path role data git_name git_mail agent
                           log_path show_staged w).2 = calls w ++ evs
     /\ Forall (fun e => ~ writes_history e) evs)
  /\ (exists evs,
        calls (add_access E entity ddrfile src_path git_name git_mail agent
                          log_path show_staged w).2 = calls w ++ evs
        /\ Forall (fun e => ~ writes_history e /\ ~ changes_entity e) evs).
Proof.
  split.
  - apply add_local_file_no_history.
  - apply add_access_no_history.
Qed.

(** ** How a run may end

    [yields X V m]: whatever the state [m] starts in, it either returns a
    value in [V] or raises an exception in [X]. *)

Definition yields {A} (X : exn -> Prop) (V : A -> Prop) (m : M A) : Prop :=
  forall w, match (m w).1 with Ret a => V a | Raise e => X e end.

Definition any {A} : A -> Prop := fun _ => True.

Lemma yields_any {A} (m : M A) : yields any any m.
Proof. intros w. now destruct (m w).1. Qed.

Lemma yields_ret {A} (X : exn -> Prop) (V : A -> Prop) (a : A) :
  V a -> yields X V (ret a).
Proof. intros H w. exact H. Qed.

Lemma yields_raise {A} (X : exn -> Prop) (V : A -> Prop) (e : exn) :
  X e -> yields X V (@raise A e).
Proof. intros H w. exact H. Qed.

Lemma yields_get (X : exn -> Prop) (V : World -> Prop) :
  (forall w, V w) -> yields X V get.
Proof. intros H w. apply H. Qed.

Lemma yields_modify (X : exn -> Prop) (V : unit -> Prop) (f : World -> World) :
  V tt -> yields X V (modify f).
Proof. intros H w. exact H. Qed.

Lemma yields_weaken {A} (X X' : exn -> Prop) (V V' : A -> Prop) (m : M A) :
  (forall e, X e -> X' e) -> (forall a, V a -> V' a) -> yields X V m -> yields X' V' m.
Proof. intros HX HV Hm w. specialize (Hm w). destruct (m w).1; auto. Qed.

Lemma yields_bind {A B} (X : exn -> Prop) (V : B -> Prop) (m : M A) (k : A -> M B) :
  yields X any m -> (forall a, yields X V (k a)) -> yields X V (bind m k).
Proof.
  intros Hm Hk w. unfold bind. specialize (Hm w).
  destruct (m w) as [[a|e] w1]; [apply Hk | exact Hm].
Qed.

Lemma yields_bind_ret {A B} (X : exn -> Prop) (V : B -> Prop) (a : A) (k : A -> M B) :
  yields X V (k a) -> yields X V (bind (ret a) k).
Proof. intros H. exact H. Qed.

Lemma yields_bind_raise {A B} (X : exn -> Prop) (V : B -> Prop) (e : exn) (k : A -> M B) :
  X e -> yields X V (bind (raise e) k).
Proof. intros H w. exact H. Qed.

(** A handler that swallows whatever the body raised. *)
Lemma yields_try_except_any {A} (X : exn -> Prop) (V : A -> Prop)
      (m : M A) (h : exn -> M A) :
  yields any V m -> (forall e, yields X V (h e)) -> yields X V (try_except m h).
Proof.
  intros Hm Hh w. unfold try_except. specialize (Hm w).
  destruct (m w) as [[a|e] w1]; [exact Hm | apply Hh].
Qed.

(** A handler that may raise again what the body raised. *)
Lemma yields_try_except_same {A} (X : exn -> Prop) (V : A -> Prop)
      (m : M A) (h : exn -> M A) :
  yields X V m -> (forall e, X e -> yields X V (h e)) -> yields X V (try_except m h).
Proof.
  intros Hm Hh w. unfold try_except. specialize (Hm w).
  destruct (m w) as [[a|e] w1]; [exact Hm | now apply Hh].
Qed.

Lemma yields_try_finally {A} (X : exn -> Prop) (V : A -> Prop)
      (m : M A) (f : option A -> M unit) :
  yields X V m -> (forall r, yields X any (f r)) -> yields X V (try_finally m f).
Proof.
  intros Hm Hf w. unfold try_finally. specialize (Hm w).
  destruct (m w) as [[a|e] w1].
  - specialize (Hf (Some a) w1). now destruct (f (Some a) w1) as [[[]|e'] w2].
  - specialize (Hf None w1). now destruct (f None w1) as [[[]|e'] w2].
Qed.

Lemma yields_for_each {A} (X : exn -> Prop) (V : unit -> Prop)
      (l : list A) (body : A -> M unit) :
  V tt -> (forall x, yields X any (body x)) -> yields X V (for_each l body).
Proof.
  intros HV Hb. induction l as [|x l IH]; cbn [for_each].
  - now apply yields_ret.
  - apply yields_bind; [apply Hb | intros _; exact IH].
Qed.

(** Following the code as for [keeps]; [side] shows that an exception
    raised, or a value returned, is of the kind allowed. *)
Ltac yields_step known side :=
  first
    [ known
    | match goal with
      | |- yields any any _ => apply yields_any
      | |- yields _ _ (ret _) => apply yields_ret; side
      | |- yields _ _ (raise _) => apply yields_raise; side
      | |- yields _ _ get => apply yields_get; intros ?; side
      | |- yields _ _ (emit _) => apply yields_modify; side
      | |- yields _ _ (modify _) => apply yields_modify; side
      | |- yields _ _ (bind (ret _) _) => apply yields_bind_ret; cbv beta
      | |- yields _ _ (bind (raise _) _) => apply yields_bind_raise; side
      | |- yields _ _ (bind _ _) => apply yields_bind; [|intros ?]
      | |- yields _ _ (try_except _ _) =>
          first [ solve [ apply yields_try_except_any;
                          [ apply yields_any
                          | intros ?; repeat yields_step known side ] ]
                | apply yields_try_except_same; [|intros ? ?] ]
      | |- yields _ _ (try_finally _ _) => apply yields_try_finally; [|intros ?]
      | |- yields _ _ (for_each _ _) => apply yields_for_each; [side|intros ?]
      | |- yields _ _ (if ?b then _ else _) => destruct b
      | |- yields _ _ (match ?x with _ => _ end) => destruct x
      | |- yields _ _ (let _ := _ in _) => cbv zeta
      end
    | progress unfold
        os_path_exists, os_path_islink, os_access_, os_makedirs, os_path_getsize,
        os_chmod, open_for_write, shutil_copy, shutil_move, fileio_write_text,
        entry, ok, not_ok, crash, addfile_logger, path_arg, str_method, getattr,
        exists_v, islink_v, move_v, check_dir, util_file_hash, checksums,
        copy_to_workdir, imaging_thumbnail, make_access_file, write_object_metadata,
        move_new_files_back, load_global, getattr_v, move_existing_files_back,
        call_move_existing_files_back, dvcs_repository, dvcs_list_staged,
        dvcs_list_modified, run_store, dvcs_stage_, dvcs_annex_stage_, dvcs_commit_,
        dvcs_list_committed, changelog_write_changelog_entry, imaging_extract_xmp,
        file_objects_append, entity_write_json, stage_files, open_log,
        truthy_and_exists, os_path_realpath ].

Ltac yields_follow known side := repeat yields_step known side.

(** A run that ends in one of the ways [X], [V] has only made calls of
    the kind [P]. *)
Definition guarded {A} (X : exn -> Prop) (V : A -> Prop) (P : event -> Prop)
           (m : M A) : Prop :=
  forall w, match (m w).1 with Ret a => V a | Raise e => X e end -> only P w (m w).2.

Lemma guarded_bind {A B} (X : exn -> Prop) (V : B -> Prop) (P : event -> Prop)
      (m : M A) (k : A -> M B) :
  keeps (only P) m -> (forall a, guarded X V P (k a)) -> guarded X V P (bind m k).
Proof.
  intros Hm Hk w. unfold bind. specialize (Hm w).
  destruct (m w) as [[a|e] w1]; cbn [fst snd] in *.
  - intros H. etransitivity; [exact Hm | exact (Hk a w1 H)].
  - intros _. exact Hm.
Qed.

Lemma guarded_never {A} (X : exn -> Prop) (V : A -> Prop) (P : event -> Prop) (m : M A) :
  yields (fun e => ~ X e) (fun a => ~ V a) m -> guarded X V P m.
Proof. intros Hm w H. specialize (Hm w). destruct (m w).1; contradiction. Qed.


(** ** Failing before anything is written *)

(** The two ways [add_local_file] refuses a source file: its destination
    is taken, or a digest could not be computed. *)
Definition early_failure (e : exn) : Prop :=
  (exists msg, e = FileExistsException msg)
  \/ e = Exception "Could not calculate checksums".

(** The directory of the journal [open_log] opens. *)
Definition journal_dir (E : Collab) (entity : Entity) (log_path : option string) : string :=
  OsPath.dirname
    (if Py.truthy (Py.of_opt log_path) then default "" log_path
     else _log_path (identifier entity) (LOG_DIR E)).

(** Calls that read, write the journal or create the journal's directory. *)
Definition reads_only (logdir : string) (e : event) : Prop :=
  match e with
  | EvLog _ _ _ _ | EvExists _ _ | EvAccess _ _ _ | EvGetsize _ | EvFileHash _ _
  | EvExtractXmp _ | EvIdentifierChild _ _ => True
  | EvMakedirs p => p = logdir
  | _ => False
  end.

Ltac by_reads := solve [cbn; first [exact I | reflexivity]].

Lemma open_log_reads (E : Collab) (entity : Entity) (log_path : option string) :
  keeps (only (reads_only (journal_dir E entity log_path))) (open_log E entity log_path).
Proof.
  unfold open_log, journal_dir, addfile_logger.
  destruct log_path as [[|c lp]|]; cbn [Py.truthy Py.of_opt String.eqb negb];
    only_follow fail by_reads.
Qed.

Ltac not_early :=
  solve [ exact I
        | assumption
        | intros []
        | unfold early_failure, instantiate;
          let H := fresh in
          intros [[? H]|H]; [discriminate H|];
          rewrite ?append_cons in H; discriminate H ].

Lemma move_files_not_early (E : Collab) (log : AddFileLogger)
      (files : list (Py.val * Py.val)) :
  yields (fun e => ~ early_failure e) any (move_files E files log).
Proof.
  induction files as [|[tmp dest] files IH]; cbn [move_files].
  - yields_follow fail not_early.
  - yields_follow ltac:(exact IH) not_early.
Qed.

Lemma add_local_file_guarded
  (E : Collab) (entity : Entity) (src_path role : string) (data : gmap string Py.val)
  (git_name git_mail agent : string) (log_path : option string) (show_staged : bool) :
  guarded early_failure (fun _ => False)
          (reads_only (journal_dir E entity log_path))
          (add_local_file E entity src_path role data git_name git_mail agent
                          log_path show_staged).
Proof.
  unfold add_local_file.
  repeat first
    [ apply guarded_bind;
      [ solve [only_follow ltac:(apply open_log_reads) by_reads] | intros ? ]
    | progress cbv zeta ].
  apply guarded_never.
  yields_follow ltac:(first [ apply move_files_not_early
                            | apply (yields_weaken _ _ _ _ _ (fun e H => H) (fun a _ => I)
                                       (move_files_not_early _ _ _)) ])
                not_early.
Qed.

(** X3.  When [add_local_file] refuses the source file, because its
    destination is already taken ([FileExistsException]) or because a
    digest could not be computed, nothing has been copied, moved, written
    or staged: every call made up to then reads the disk, derives the
    identifier, writes to the journal or creates the journal's
    directory. *)
Theorem add_local_file_refuses_before_writing
  (E : Collab) (entity : Entity) (src_path role : string) (data : gmap string Py.val)
  (git_name git_mail agent : string) (log_path : option string) (show_staged : bool)
  (w : World) (e : exn) :
  (add_local_file E entity src_path role data git_name git_mail agent
                  log_path show_staged w).1 = Raise e ->
  early_failure e ->
  exists evs,
    calls (add_local_file E entity src_path role data git_name git_mail agent
                          log_path show_staged w).2 = calls w ++ evs
    /\ Forall (reads_only (journal_dir E entity log_path)) evs.
Proof.
  intros Hrun He. apply add_local_file_guarded. now rewrite Hrun.
Qed.

(** A second copy of a file that is already in the collection. *)
Definition duplicate_world : World :=
  Demo.world
    (list_to_map
       [("/incoming/scan.tif", File "pixels");
        ("/media/ddr/ddr-test-1/files/ddr-test-1-1/files/ddr-test-1-1-master-sha1:pixel.tif",
         File "pixels")])
    Demo.empty_store.

Definition duplicate_error : exn :=
  FileExistsException
    "Can't add 'scan.tif'. Already exists: 'ddr-test-1-1-master-sha1:pixel'!".

Lemma duplicate_run :
  (add_local_file (Demo.collab Demo.thumb_ok) Demo.entity "/incoming/scan.tif" "master" ∅
                  "gjost" "gjost@densho.org" "" None true duplicate_world).1
  = Raise duplicate_error.
Proof. vm_compute. reflexivity. Qed.

Lemma duplicate_early : early_failure duplicate_error.
Proof. left. eexists. reflexivity. Qed.

Lemma add_local_file_refuses_before_writing_witness :
  exists evs,
    calls (add_local_file (Demo.collab Demo.thumb_ok) Demo.entity "/incoming/scan.tif"
                          "master" ∅ "gjost" "gjost@densho.org" "" None true
                          duplicate_world).2
    = calls duplicate_world ++ evs
    /\ Forall (reads_only (journal_dir (Demo.collab Demo.thumb_ok) Demo.entity None)) evs.
Proof.
  exact (add_local_file_refuses_before_writing
           (Demo.collab Demo.thumb_ok) Demo.entity "/incoming/scan.tif" "master" ∅
           "gjost" "gjost@densho.org" "" None true duplicate_world duplicate_error
           duplicate_run duplicate_early).
Defined.

(** ** Regenerating an access file: the early exit *)











(** ** The commit, once the gate is open *)

(** The lines [add_file_commit] hands to the changelog. *)
Definition changelog_lines (entity : Entity) (path_abs agent : string) : list string :=
  ["Added entity file " +:+ Py.remove_all (path entity +:+ "/") path_abs]
  ++ (if String.eqb agent "" then [] else ["@agent: " +:+ agent]).

Lemma filter_logs (P : event -> bool) (log : AddFileLogger) (st : string) (evs : list event) :
  (forall p ts s m, P (EvLog p ts s m) = false) ->
  Forall (fun e => exists ts m, e = EvLog (logpath log) ts st m) evs ->
  List.filter P evs = [].
Proof.
  intros HP. induction 1 as [|e evs (ts & m & ->) _ IH]; [reflexivity|].
  cbn [List.filter]. now rewrite HP.
Qed.

(** What staging the changelog makes of the store and the disk, after
    [add_file_commit] has written its entry. *)
Definition changelog_staged (E : Collab) (entity : Entity)
           (git_name git_mail agent path_abs : string) (w : World)
  : option exn * Store * gmap string node :=
  dvcs_stage E [Py.VStr (changelog_path_rel entity)] (store w)
    (write_changelog_entry E (changelog_path entity)
       (changelog_lines entity path_abs agent) git_name git_mail (fs w)).

(** X13.  With something staged, nothing modified and a [File] that has its
    path, [add_file_commit] writes the changelog entry (the [@agent] line
    only for a non-empty agent), stages the changelog, and then commits
    once with the message 'Added entity file(s)', in that order; it
    returns the [File], repository and logger it was given.  Should
    staging the changelog raise, the error is passed on and nothing is
    committed. *)
Theorem add_file_commit_commits_once
  (E : Collab) (entity : Entity) (file_ : FileObj) (repo : string)
  (log : AddFileLogger) (git_name git_mail agent path_abs : string) (w : World) :
  staged (store w) <> [] -> modified (store w) = [] ->
  file_ !! "path_abs" = Some (Py.VStr path_abs) ->
  exists evs,
    calls (add_file_commit E entity file_ repo log git_name git_mail agent w).2
    = calls w ++ evs
    /\ ((changelog_staged E entity git_name git_mail agent path_abs w).1.1 = None ->
        (add_file_commit E entity file_ repo log git_name git_mail agent w).1
        = Ret (file_, repo, log)
        /\ store (add_file_commit E entity file_ repo log git_name git_mail agent w).2
           = (dvcs_commit E "Added entity file(s)" agent
                (changelog_staged E entity git_name git_mail agent path_abs w).1.2).2
        /\ fs (add_file_commit E entity file_ repo log git_name git_mail agent w).2
           = (changelog_staged E entity git_name git_mail agent path_abs w).2
        /\ List.filter commits evs
           = [EvWriteChangelog (changelog_path entity);
              EvStage [Py.VStr (changelog_path_rel entity)];
              EvCommit "Added entity file(s)" agent])
    /\ (forall e,
          (changelog_staged E entity git_name git_mail agent path_abs w).1.1 = Some e ->
          (add_file_commit E entity file_ repo log git_name git_mail agent w).1 = Raise e
          /\ List.filter commits evs
             = [EvWriteChangelog (changelog_path entity);
                EvStage [Py.VStr (changelog_path_rel entity)]]).
Proof.
  intros Hs Hm Hp.
  unfold changelog_staged.
  set (fs1 := write_changelog_entry E (changelog_path entity)
                (changelog_lines entity path_abs agent) git_name git_mail (fs w)).
  set (st := dvcs_stage E [Py.VStr (changelog_path_rel entity)] (store w) fs1).
  unfold add_file_commit, getattr, str_method, changelog_write_changelog_entry,
    dvcs_stage_, dvcs_commit_, dvcs_list_committed, run_store.
  rewrite Hp. run_prims. rewrite Hm.
  destruct (staged (store w)) as [|s0 sl] eqn:Hst0; [congruence|].
  rewrite !bool_decide_eq_false_2 by discriminate.
  rewrite bool_decide_eq_true_2 by reflexivity.
  cbn [negb andb fst snd fs store file_objects trace record with_fs with_store].
  assert (Hlines : (if negb (String.eqb agent "")
                    then ["Added entity file " +:+ Py.remove_all (path entity +:+ "/") path_abs]
                           ++ ["@agent: " +:+ agent]
                    else ["Added entity file " +:+ Py.remove_all (path entity +:+ "/") path_abs])
                   = changelog_lines entity path_abs agent).
  { unfold changelog_lines. now destruct (String.eqb agent ""). }
  rewrite Hlines. fold fs1. rewrite <- Hst0. fold st.
  destruct st as [[[e|] s1] fs2]; cbn [fst snd];
    cbn [fst snd fs store file_objects trace record with_fs with_store].
  - eexists. split; [in_order; reflexivity|]. split; [discriminate|].
    intros e' [= <-]. now split.
  - match goal with
    | |- context [for_each ?l ?body ?W] =>
        destruct (for_each_entry_run E log "ok" (fun f => "| " +:+ f) l W)
          as (w' & Hrun & Hfs & Hstore & _ & evs & Hc & Hlog);
        change (for_each l body W)
          with (for_each l (fun f => entry E log "ok" ("| " +:+ f)) W);
        rewrite Hrun
    end.
    cbn [fst snd fs store file_objects trace record with_fs with_store] in *.
    eexists. split.
    { rewrite Hc. in_order. reflexivity. }
    split; [|discriminate]. intros _.
    split; [reflexivity|]. split; [exact Hstore|]. split; [exact Hfs|].
    cbn [List.filter commits]. rewrite (filter_logs commits log "ok" evs); auto.
Qed.

(** One file staged, nothing modified. *)
Definition ready_world : World :=
  Demo.world (list_to_map [("/media/ddr/ddr-test-1/files/ddr-test-1-1/files/x.tif",
                            File "pixels")])
             {| staged := ["files/ddr-test-1-1/files/x.tif"]; modified := [];
                history := [] |}.

Definition ready_file : FileObj :=
  Demo.file_of "/media/ddr/ddr-test-1/files/ddr-test-1-1/files/x.tif" Demo.ident.

Lemma ready_staged : staged (store ready_world) <> [].
Proof. discriminate. Qed.

Lemma ready_path :
  ready_file !! "path_abs"
  = Some (Py.VStr "/media/ddr/ddr-test-1/files/ddr-test-1-1/files/x.tif").
Proof. vm_compute. reflexivity. Qed.

Lemma ready_changelog :
  (changelog_staged (Demo.collab Demo.thumb_ok) Demo.entity "gjost" "gjost@densho.org"
     "cmdln" "/media/ddr/ddr-test-1/files/ddr-test-1-1/files/x.tif" ready_world).1.1 = None.
Proof. reflexivity. Qed.

Lemma add_file_commit_commits_once_witness :
  exists evs,
    calls (add_file_commit (Demo.collab Demo.thumb_ok) Demo.entity ready_file
             "/media/ddr/ddr-test-1" Demo.log "gjost" "gjost@densho.org" "cmdln"
             ready_world).2
    = calls ready_world ++ evs
    /\ List.filter commits evs
       = [EvWriteChangelog (changelog_path Demo.entity);
          EvStage [Py.VStr (changelog_path_rel Demo.entity)];
          EvCommit "Added entity file(s)" "cmdln"].
Proof.
  destruct (add_file_commit_commits_once
              (Demo.collab Demo.thumb_ok) Demo.entity ready_file "/media/ddr/ddr-test-1"
              Demo.log "gjost" "gjost@densho.org" "cmdln"
              "/media/ddr/ddr-test-1/files/ddr-test-1-1/files/x.tif" ready_world
              ready_staged eq_refl ready_path) as (evs & Hc & Hok & _).
  exists evs. destruct (Hok ready_changelog) as (_ & _ & _ & Hf).
  exact (conj Hc Hf).
Defined.

(** ** The working copy *)




(** ** The prediction *)

(** X18.  [predict_staged] keeps the paths already staged, in order, and adds
    after them the planned paths that are not among them.  For lists
    without repetition the prediction has none either, so that its length
    is the size of the union; but whatever the planned list, a path not
    yet staged is predicted as many times as it is planned. *)
Theorem predict_staged_extends_already
  {A} `{EqDecision A} (already planned : list A) :
  NoDup already -> NoDup planned ->
  NoDup (predict_staged already planned)
  /\ already `prefix_of` predict_staged already planned
  /\ (forall x, x ∈ predict_staged already planned <-> x ∈ already \/ x ∈ planned)
  /\ (forall again x, x ∉ already ->
        length (filter (fun y => y = x) (predict_staged already again))
        = length (filter (fun y => y = x) again)).
Proof.
  intros Ha Hp. unfold predict_staged. split; [|split; [|split]].
  - apply NoDup_app. split; [exact Ha|]. split.
    + intros x Hx Hx'. apply list_elem_of_filter in Hx' as [Hn _]. contradiction.
    + now apply NoDup_filter.
  - now eexists.
  - intros x. rewrite elem_of_app, list_elem_of_filter.
    destruct (decide (x ∈ already)); tauto.
  - intros again x Hx. rewrite !filter_app, !length_app.
    assert (H0 : filter (fun y => y = x) already = []).
    { clear Ha. induction already as [|y l IH]; [reflexivity|].
      rewrite filter_cons. apply not_elem_of_cons in Hx as [Hne Hx].
      destruct (decide (y = x)); [congruence | now apply IH]. }
    assert (H1 : filter (fun y => y = x) (filter (fun path => path ∉ already) again)
                 = filter (fun y => y = x) again).
    { induction again as [|y l IH]; [reflexivity|].
      rewrite !filter_cons. destruct (decide (y ∉ already)) as [Hy|Hy].
      - rewrite filter_cons. destruct (decide (y = x)); now rewrite IH.
      - destruct (decide (y = x)) as [->|]; [contradiction|exact IH]. }
    rewrite H0, H1. reflexivity.
Qed.

Lemma predict_staged_extends_already_witness :
  NoDup (predict_staged ["a.json"] ["a.json"; "a.tif"])
  /\ ["a.json"] `prefix_of` predict_staged ["a.json"] ["a.json"; "a.tif"]
  /\ (forall x : string,
        x ∈ predict_staged ["a.json"] ["a.json"; "a.tif"]
        <-> x ∈ ["a.json"] \/ x ∈ ["a.json"; "a.tif"])
  /\ (forall (again : list string) (x : string), x ∉ ["a.json"] ->
        length (filter (fun y => y = x) (predict_staged ["a.json"] again))
        = length (filter (fun y => y = x) again)).
Proof.
  apply predict_staged_extends_already;
    apply (bool_decide_unpack _); vm_compute; exact I.
Defined.

(** ** The order of the steps *)

(** Calls that leave the entity as it is and register nothing. *)
Definition prepares (e : event) : Prop :=
  match e with
  | EvAppendChild _ | EvEntityWriteJson _ | EvStage _ | EvAnnexStage _
  | EvCommit _ _ | EvWriteChangelog _ => False
  | _ => True
  end.

(** Calls that leave the entity as it is. *)
Definition keeps_entity (e : event) : Prop :=
  match e with
  | EvAppendChild _ | EvEntityWriteJson _ | EvCommit _ _ | EvWriteChangelog _ => False
  | _ => True
  end.

(** Every rename is followed at once by a check that finds its
    destination. *)
Fixpoint checked (evs : list event) : Prop :=
  match evs with
  | [] => True
  | EvMove _ d :: rest =>
      match rest with
      | EvExists d' true :: rest' => d' = d /\ checked rest'
      | _ => False
      end
  | _ :: rest => checked rest
  end.

Lemma checked_app (a b : list event) : checked a -> checked b -> checked (a ++ b).
Proof.
  intros Ha Hb. remember (length a) as n eqn:Hn.
  assert (Hle : length a <= n) by lia. clear Hn.
  revert a Ha Hle. induction n as [|n IH]; intros a Ha Hle.
  - destruct a; [exact Hb | cbn in Hle; lia].
  - destruct a as [|e a]; [exact Hb|]. cbn [length] in Hle.
    destruct e; cbn [app checked] in *; try (apply IH; [assumption | lia]).
    destruct a as [|[] a]; try contradiction.
    destruct r; [|contradiction]. destruct Ha as [-> Ha].
    cbn [app]. split; [reflexivity|]. apply IH; [assumption | cbn [length] in Hle; lia].
Qed.

Definition quiet (e : event) : Prop :=
  prepares e /\ match e with EvMove _ _ => False | _ => True end.

Lemma quiet_checked (evs : list event) :
  Forall quiet evs -> Forall prepares evs /\ checked evs.
Proof.
  induction 1 as [|e evs [Hp Hm] _ [IH1 IH2]]; [now split|].
  split; [now constructor|]. now destruct e.
Qed.

(** [upto P Mk Next evs]: calls of the kind [P] and then, unless the run
    stops before, one call of the kind [Mk] followed by calls as [Next]
    describes. *)
Definition upto (P Mk : event -> Prop) (Next : list event -> Prop)
           (evs : list event) : Prop :=
  Forall P evs
  \/ exists pre e post, evs = pre ++ e :: post /\ Forall P pre /\ Mk e /\ Next post.

Definition ends {A} (Next : list event -> Prop) (m : M A) : Prop :=
  forall w, exists evs, calls (m w).2 = calls w ++ evs /\ Next evs.

Lemma ends_bind {A B} (P Mk : event -> Prop) Next (m : M A) (k : A -> M B) :
  keeps (only P) m -> (forall a, ends (upto P Mk Next) (k a)) ->
  ends (upto P Mk Next) (bind m k).
Proof.
  intros Hm Hk w. unfold bind. destruct (Hm w) as (evs & Hc & HF).
  destruct (m w) as [[a|e] w1]; cbn [fst snd] in *.
  - destruct (Hk a w1) as (evs' & Hc' & Hph). exists (evs ++ evs').
    split; [now rewrite Hc', Hc, app_assoc|].
    destruct Hph as [H|(pre & e & post & -> & Hpre & He & Hpost)].
    + left. now apply Forall_app.
    + right. exists (evs ++ pre), e, post. rewrite <- app_assoc.
      split; [reflexivity|]. split; [now apply Forall_app | now split].
  - exists evs. split; [exact Hc | now left].
Qed.

(** A marked call, at the head of a step. *)
Lemma ends_mark {A B} (P Mk : event -> Prop) Next (e : event)
      (k0 : unit -> M A) (k : A -> M B) :
  Mk e -> ends Next (bind (k0 tt) k) ->
  ends (upto P Mk Next) (bind (bind (emit e) k0) k).
Proof.
  intros He Hk w. destruct (Hk (record e w)) as (evs & Hc & Hph).
  exists (e :: evs). split.
  - change (bind (bind (emit e) k0) k w) with (bind (k0 tt) k (record e w)).
    rewrite Hc, calls_record, <- app_assoc. reflexivity.
  - right. exists [], e, evs. now repeat split.
Qed.

(** Between the attachment of the child and the rewrite of [entity.json]:
    the run stops there, or every rename it has made has been checked. *)
Definition relocated_then (Mk : event -> Prop) (Next : list event -> Prop)
           (evs : list event) : Prop :=
  Forall prepares evs
  \/ exists pre e post,
       evs = pre ++ e :: post /\ Forall prepares pre /\ checked pre /\ Mk e /\ Next post.

(** A step that registers nothing and, when it returns for a value in
    [good], has checked every rename it made. *)
Definition passes_if {A} (good : A -> Prop) (m : M A) : Prop :=
  forall w, exists evs,
    calls (m w).2 = calls w ++ evs /\ Forall prepares evs
    /\ forall a, (m w).1 = Ret a -> good a -> checked evs.

Lemma passes_quiet {A} (m : M A) : keeps (only quiet) m -> passes_if any m.
Proof.
  intros Hm w. destruct (Hm w) as (evs & Hc & HF).
  apply quiet_checked in HF as [H1 H2]. exists evs. now repeat split.
Qed.

Lemma relocated_bind {A B} (good : A -> Prop) Mk Next (m : M A) (k : A -> M B) :
  passes_if good m ->
  (forall a, good a -> ends (relocated_then Mk Next) (k a)) ->
  (forall a, ~ good a -> keeps (only prepares) (k a)) ->
  (forall a, good a \/ ~ good a) ->
  ends (relocated_then Mk Next) (bind m k).
Proof.
  intros Hm Hk Hbad Hdec w. unfold bind. destruct (Hm w) as (evs & Hc & HF & Hch).
  destruct (m w) as [[a|e] w1]; cbn [fst snd] in *.
  - destruct (Hdec a) as [Hg|Hg].
    + destruct (Hk a Hg w1) as (evs' & Hc' & Hph). exists (evs ++ evs').
      split; [now rewrite Hc', Hc, app_assoc|].
      destruct Hph as [H|(pre & e & post & -> & Hpre & Hcp & He & Hpost)].
      * left. now apply Forall_app.
      * right. exists (evs ++ pre), e, post. rewrite <- app_assoc.
        split; [reflexivity|]. split; [now apply Forall_app|].
        split; [apply checked_app; [now apply (Hch a)|assumption] | now split].
    + destruct (Hbad a Hg w1) as (evs' & Hc' & HF'). exists (evs ++ evs').
      split; [now rewrite Hc', Hc, app_assoc|]. left. now apply Forall_app.
  - exists evs. split; [exact Hc | now left].
Qed.

Lemma relocated_mark {A B} (Mk : event -> Prop) Next (e : event)
      (k0 : unit -> M A) (k : A -> M B) :
  Mk e -> ends Next (bind (k0 tt) k) ->
  ends (relocated_then Mk Next) (bind (bind (emit e) k0) k).
Proof.
  intros He Hk w. destruct (Hk (record e w)) as (evs & Hc & Hph).
  exists (e :: evs). split.
  - change (bind (bind (emit e) k0) k w) with (bind (k0 tt) k (record e w)).
    rewrite Hc, calls_record, <- app_assoc. reflexivity.
  - right. exists [], e, evs. now repeat split.
Qed.

Lemma ends_only {A} (P : event -> Prop) (m : M A) :
  keeps (only P) m -> ends (Forall P) m.
Proof. intros Hm. exact Hm. Qed.

(** A step that always raises is the end of the run. *)
Lemma keeps_bind_raises {A B} (R : relation World) (m : M A) (k : A -> M B) :
  (forall w, exists e, (m w).1 = Raise e) -> keeps R m -> keeps R (bind m k).
Proof.
  intros Hr Hm w. unfold bind. specialize (Hm w). destruct (Hr w) as [e He].
  destruct (m w) as [[a|e'] w1]; [discriminate | exact Hm].
Qed.

Ltac by_prepares := solve [cbn; exact I].
Ltac by_quiet := solve [cbn; split; exact I].
Ltac by_any := solve [exact I].

(** [move_files] returning no failure has checked every rename. *)
Lemma move_files_passes (E : Collab) (log : AddFileLogger)
      (files : list (Py.val * Py.val)) :
  passes_if (fun failures => failures = []) (move_files E files log).
Proof.
  assert (Honly : forall files, keeps (only prepares) (move_files E files log))
    by (intros l; apply move_files_only; intros; exact I).
  intros w. destruct (Honly files w) as (evs & Hc & HF).
  exists evs. split; [exact Hc|]. split; [exact HF|].
  clear HF. revert w evs Hc.
  induction files as [|[tmp dest] files IH]; intros w evs Hc fl Hrun ->.
  - cbn in Hc. rewrite <- (app_nil_r (calls w)) in Hc at 1.
    apply app_inv_head in Hc. now subst evs.
  - destruct (move_files E ((tmp, dest) :: files) log w) as [r w'] eqn:Hmf.
    cbn [fst snd] in *. subst r.
    cbn [move_files] in Hmf.
    apply bind_ret_inv in Hmf as ([] & w1 & Hok & H).
    unfold ok in Hok. rewrite entry_run in Hok. inversion Hok; subst w1; clear Hok.
    apply bind_ret_inv in H as ([] & w2 & Hmv & H).
    apply move_v_ret_inv in Hmv as (s & d & -> & -> & Hc2).
    apply bind_ret_inv in H as (b & w3 & Hex & H).
    unfold exists_v, path_arg, os_path_exists in Hex. run_prims.
    cbn [fst snd fs store file_objects trace record length] in Hex.
    inversion Hex; subst b w3; clear Hex.
    destruct (Fs.exists_ (fs w2) d) eqn:Hd; cbn [negb] in H.
    + specialize (IH (record (EvExists d true) w2)).
      rewrite H in IH. cbn [fst snd] in IH.
      assert (Hpre : calls w' = calls (record (EvExists d true) w2)
                                  ++ drop 3 evs
                     /\ evs = EvLog (logpath log) (now E (length (trace w))) "ok"
                                ("| mv " +:+ Py.str (Py.VStr s) +:+ " " +:+ Py.str (Py.VStr d))
                              :: EvMove s d :: EvExists d true :: drop 3 evs).
      { destruct (Honly files (record (EvExists d true) w2)) as (evs' & Hc' & _).
        rewrite H in Hc'. cbn [snd] in Hc'.
        rewrite Hc', calls_record, Hc2, calls_record, <- !app_assoc in Hc.
        cbn [app] in Hc. apply app_inv_head in Hc. subst evs. cbn [drop]. now split. }
      destruct Hpre as [Hc3 ->].
      cbn [checked drop]. split; [reflexivity|].
      now apply (IH _ Hc3 []).
    + apply bind_ret_inv in H as ([] & w4 & _ & H). discriminate H.
Qed.

Lemma rollback_ends_run {B} (E : Collab) (log : AddFileLogger)
      (files : list (Py.val * Py.val)) (failures : list Py.val) (msg : string)
      (k : unit -> M B) :
  keeps (only prepares)
        (bind (not_ok E log msg ;; move_new_files_back E files failures log) k).
Proof.
  apply keeps_bind_raises.
  - intros w. eexists. unfold not_ok at 1.
    rewrite (bind_run _ _ _ _ _ (entry_run E log _ _ _)).
    apply move_new_files_back_raises.
  - only_follow ltac:(apply move_files_only; intros; by_prepares) by_prepares.
Qed.

Lemma add_local_file_order
  (E : Collab) (entity : Entity) (src_path role : string) (data : gmap string Py.val)
  (git_name git_mail agent : string) (log_path : option string) (show_staged : bool) :
  ends (upto prepares (fun e => exists f, e = EvAppendChild f)
          (relocated_then (fun e => e = EvEntityWriteJson (json_path entity))
             (Forall keeps_entity)))
       (add_local_file E entity src_path role data git_name git_mail agent
                       log_path show_staged).
Proof.
  unfold add_local_file.
  repeat first
    [ apply ends_bind;
      [ solve [only_follow ltac:(apply move_files_only; intros; by_prepares) by_prepares]
      | intros ? ]
    | progress cbv zeta ].
  unfold file_objects_append at 1.
  apply ends_mark; [now eexists|].
  repeat first
    [ lazymatch goal with
      | |- ends _ (bind (move_files _ _ _) _) => fail
      | |- _ =>
          apply (relocated_bind any);
          [ apply passes_quiet; solve [only_follow fail by_quiet]
          | intros ? _
          | intros ? H; exfalso; apply H; exact I
          | intros ?; left; exact I ]
      end
    | progress cbv zeta ].
  apply (relocated_bind (fun failures => failures = []));
    [ apply move_files_passes
    | intros ? ->
    | intros [|x l] Hne; [contradiction|]; cbv beta iota; apply rollback_ends_run
    | intros [|x l]; [now left | now right] ].
  repeat first
    [ lazymatch goal with
      | |- ends _ (bind (entity_write_json _ _) _) => fail
      | |- _ =>
          apply (relocated_bind any);
          [ apply passes_quiet; solve [only_follow fail by_quiet]
          | intros ? _
          | intros ? H; exfalso; apply H; exact I
          | intros ?; left; exact I ]
      end
    | progress cbv zeta ].
  unfold entity_write_json at 1.
  apply relocated_mark; [reflexivity|].
  apply ends_only.
  only_follow ltac:(apply move_files_only; intros; by_prepares) by_prepares.
Qed.

(** A run that returns has made a call of the kind [Mk]. *)
Definition returns_after {A} (Mk : event -> Prop) (m : M A) : Prop :=
  forall w a, (m w).1 = Ret a ->
    exists evs, calls (m w).2 = calls w ++ evs /\ Exists Mk evs.

Lemma returns_after_bind {A B} (Mk : event -> Prop) (m : M A) (k : A -> M B) :
  keeps (only any) m -> (forall a, returns_after Mk (k a)) ->
  returns_after Mk (bind m k).
Proof.
  intros Hm Hk w b. unfold bind. destruct (Hm w) as (evs & Hc & _).
  destruct (m w) as [[a|e] w1]; cbn [fst snd] in *; [|discriminate].
  intros Hr. destruct (Hk a w1 b Hr) as (evs' & Hc' & Hex).
  exists (evs ++ evs'). split; [now rewrite Hc', Hc, app_assoc|].
  apply Exists_app. now right.
Qed.

Lemma returns_after_mark {A B} (Mk : event -> Prop) (e : event)
      (k0 : unit -> M A) (k : A -> M B) :
  Mk e -> keeps (only any) (bind (k0 tt) k) ->
  returns_after Mk (bind (bind (emit e) k0) k).
Proof.
  intros He Hk w b _. destruct (Hk (record e w)) as (evs & Hc & _).
  exists (e :: evs). split.
  - change (bind (bind (emit e) k0) k w) with (bind (k0 tt) k (record e w)).
    rewrite Hc, calls_record, <- app_assoc. reflexivity.
  - now left.
Qed.

Lemma add_local_file_returns_after
  (E : Collab) (entity : Entity) (src_path role : string) (data : gmap string Py.val)
  (git_name git_mail agent : string) (log_path : option string) (show_staged : bool) :
  returns_after (fun e => e = EvEntityWriteJson (json_path entity))
                (add_local_file E entity src_path role data git_name git_mail agent
                                log_path show_staged).
Proof.
  unfold add_local_file.
  repeat first
    [ lazymatch goal with
      | |- returns_after _ (bind (entity_write_json _ _) _) => fail
      | |- _ =>
          apply returns_after_bind;
          [ solve [only_follow ltac:(apply move_files_only; intros; by_any) by_any]
          | intros ? ]
      end
    | progress cbv zeta ].
  unfold entity_write_json at 1.
  apply returns_after_mark; [reflexivity|].
  only_follow ltac:(apply move_files_only; intros; by_any) by_any.
Qed.

(** X2.  In every run of [add_local_file] the steps come in this order: the
    child is attached to the entity; then the new files are moved to
    their destinations; then [entity.json] is rewritten; then the files
    are staged.  A run may stop at any point, and one that stops after
    the first step leaves the child attached.  But [entity.json] is
    rewritten only when every rename made since the attachment was
    followed at once by a check that found its destination, nothing is
    staged before [entity.json] is rewritten, and neither step is taken
    twice.  A run that returns has rewritten [entity.json]. *)
Theorem add_local_file_attaches_moves_writes_stages
  (E : Collab) (entity : Entity) (src_path role : string) (data : gmap string Py.val)
  (git_name git_mail agent : string) (log_path : option string) (show_staged : bool)
  (w : World) :
  exists evs,
    calls (add_local_file E entity src_path role data git_name git_mail agent
                          log_path show_staged w).2 = calls w ++ evs
    /\ (Forall prepares evs
        \/ exists pre file_ mid,
             evs = pre ++ EvAppendChild file_ :: mid /\ Forall prepares pre
             /\ (Forall prepares mid
                 \/ exists moved post,
                      mid = moved ++ EvEntityWriteJson (json_path entity) :: post
                      /\ Forall prepares moved /\ checked moved
                      /\ Forall keeps_entity post))
    /\ (forall a,
          (add_local_file E entity src_path role data git_name git_mail agent
                          log_path show_staged w).1 = Ret a ->
          In (EvEntityWriteJson (json_path entity)) evs).
Proof.
  destruct (add_local_file_order E entity src_path role data git_name git_mail agent
              log_path show_staged w) as (evs & Hc & Hph).
  exists evs. split; [exact Hc|]. split.
  - destruct Hph as [H|(pre & e & mid & -> & Hpre & [f ->] & Hmid)]; [now left|right].
    exists pre, f, mid.
    split; [reflexivity|]. split; [exact Hpre|].
    destruct Hmid as [H|(moved & e & post & -> & Hmoved & Hch & -> & Hpost)];
      [now left|right].
    now exists moved, post.
  - intros a Ha.
    destruct (add_local_file_returns_after E entity src_path role data git_name git_mail
                agent log_path show_staged w a Ha) as (evs' & Hc' & Hex).
    rewrite Hc in Hc'. apply app_inv_head in Hc'. subst evs'.
    apply Exists_exists in Hex as (e & Hin & ->). now apply list_elem_of_In.
Qed.

(** ** File names *)

Definition plain (c : ascii) : bool := negb (OsPath.is_slash c).

Lemma take_while_all (p : ascii -> bool) (l r : list ascii) :
  Forall (fun c => p c = true) l ->
  match r with c :: _ => p c = false | [] => True end ->
  OsPath.take_while p (l ++ r) = l.
Proof.
  intros Hl Hr. induction Hl as [|c l Hc _ IH]; cbn.
  - destruct r as [|c r]; cbn; [reflexivity | now rewrite Hr].
  - now rewrite Hc, IH.
Qed.

Lemma take_while_holds (p : ascii -> bool) (l : list ascii) :
  Forall (fun c => p c = true) (OsPath.take_while p l).
Proof.
  induction l as [|c l IH]; cbn; [constructor|].
  destruct (p c) eqn:Hc; now constructor.
Qed.

Lemma chars_text (l : list ascii) : OsPath.chars (OsPath.text l) = l.
Proof. apply list_ascii_of_string_of_list_ascii. Qed.

Lemma text_chars (s : string) : OsPath.text (OsPath.chars s) = s.
Proof. apply string_of_list_ascii_of_string. Qed.

Lemma basename_plain (p : string) :
  Forall (fun c => plain c = true) (OsPath.chars (OsPath.basename p)).
Proof.
  unfold OsPath.basename. rewrite chars_text.
  apply Forall_rev, take_while_holds.
Qed.

(** Joining a name without separator to a directory gives a path with
    that name. *)
Lemma basename_join2 (a b : string) :
  Forall (fun c => plain c = true) (OsPath.chars b) ->
  OsPath.basename (OsPath.join2 a b) = b.
Proof.
  intros Hb.
  assert (Hrev : Forall (fun c => plain c = true) (rev (OsPath.chars b)))
    by now apply Forall_rev.
  assert (Hname : forall pre, match pre with c :: _ => plain c = false | [] => True end ->
                  OsPath.text (rev (OsPath.take_while plain (rev (OsPath.chars b) ++ pre)))
                  = b).
  { intros pre Hpre. rewrite take_while_all by assumption.
    now rewrite rev_involutive, text_chars. }
  assert (Hstart : OsPath.starts_with_slash b = false).
  { destruct b as [|c b]; [reflexivity|]. cbn in Hb |- *.
    apply Forall_cons in Hb as [Hc _]. unfold plain in Hc.
    now destruct (OsPath.is_slash c). }
  unfold OsPath.join2. rewrite Hstart. unfold OsPath.basename. fold plain.
  destruct (String.eqb a "") eqn:Ha; cbn [orb].
  - apply String.eqb_eq in Ha. subst a. rewrite append_nil_l.
    rewrite <- (app_nil_r (rev (OsPath.chars b))). now apply Hname.
  - destruct (OsPath.ends_with_slash a) eqn:He.
    + rewrite chars_append, rev_app_distr. apply Hname.
      unfold OsPath.ends_with_slash in He. unfold plain.
      destruct (rev (OsPath.chars a)); [exact I | now rewrite He].
    + rewrite !chars_append, !rev_app_distr, <- app_assoc. now apply Hname.
Qed.

(** X19.  The working copy is renamed to the file name of its destination, and
    the access file is made under the name the [File] class gives it:
    [temporary_path_renamed] and [access_path] only choose the
    directory. *)
Theorem scratch_names_follow_destination
  (E : Collab) (tmp_path dest_path tmp_path_renamed : string) :
  OsPath.basename (temporary_path_renamed tmp_path dest_path) = OsPath.basename dest_path
  /\ OsPath.basename (access_path E tmp_path_renamed)
     = OsPath.basename (access_filename E tmp_path_renamed).
Proof.
  unfold temporary_path_renamed, access_path, OsPath.join. cbn [fold_left].
  split; apply basename_join2, basename_plain.
Qed.

(** ** Regenerating an access file: staging comes last *)






Lemma drop_while_keeps (P : ascii -> Prop) (p : ascii -> bool) (l : list ascii) :
  Forall P l -> Forall P (OsPath.drop_while p l).
Proof.
  induction 1 as [|c l Hc Hl IH]; cbn; [constructor|].
  destruct (p c); [exact IH | now constructor].
Qed.

Lemma take_while_keeps (P : ascii -> Prop) (p : ascii -> bool) (l : list ascii) :
  Forall P l -> Forall P (OsPath.take_while p l).
Proof.
  induction 1 as [|c l Hc Hl IH]; cbn; [constructor|].
  destruct (p c); now constructor.
Qed.

Lemma ext_plain (p : string) :
  Forall (fun c => plain c = true) (OsPath.chars (OsPath.ext p)).
Proof.
  unfold OsPath.ext.
  set (b := OsPath.drop_while OsPath.is_dot (OsPath.chars (OsPath.basename p))).
  assert (Hb : Forall (fun c => plain c = true) b)
    by apply drop_while_keeps, basename_plain.
  destruct (existsb OsPath.is_dot b); [|constructor].
  rewrite chars_text. constructor; [reflexivity|].
  apply Forall_rev, take_while_keeps. now apply Forall_rev.
Qed.

(** X20.  A file is stored under its identifier followed by the extension
    of the source file, for an identifier without separator; and its
    first working copy keeps the source's file name. *)
Theorem destination_named_by_identifier
  (src_path dest_dir base_dir : string) (fidentifier : Identifier) :
  Forall (fun c => plain c = true) (OsPath.chars (id fidentifier)) ->
  OsPath.basename (destination_path src_path dest_dir fidentifier)
  = id fidentifier +:+ OsPath.ext (OsPath.basename src_path)
  /\ OsPath.basename (temporary_path src_path base_dir fidentifier)
     = OsPath.basename src_path.
Proof.
  intros Hid. unfold destination_path, temporary_path, OsPath.join.
  split.
  - cbn [fold_left]. apply basename_join2.
    rewrite chars_append. apply Forall_app. split; [exact Hid | apply ext_plain].
  - cbn [fold_left]. apply basename_join2, basename_plain.
Qed.

Lemma destination_named_by_identifier_witness :
  OsPath.basename (destination_path "/incoming/scan.tif"
                     (files_path Demo.entity) Demo.ident)
  = id Demo.ident +:+ OsPath.ext (OsPath.basename "/incoming/scan.tif")
  /\ OsPath.basename (temporary_path "/incoming/scan.tif" "/media" Demo.ident)
     = OsPath.basename "/incoming/scan.tif".
Proof.
  apply destination_named_by_identifier.
  apply (bool_decide_unpack _). vm_compute. exact I.
Defined.

(** ** What escapes the staging step *)





